(** * Alchemy monorepo: a shallow embedding of the data-access layer, the
  documentation generator and two React components, with the properties
  the specification states about them.

  Sources embedded here:
  - the client's [Reputation] class (constructor and [reputationOf]);
  - [docs/scripts/gen.js] ([compile], [render], [destFn], the top-level
    try/catch);
  - [src/components/ViewDao/DaoMembersContainer.tsx];
  - [src/components/Scheme/Staking/LockRow.tsx]. *)

From Stdlib Require Import ZArith String Ascii List Bool Lia Floats.
From stdpp Require Import base option list gmap strings pretty sorting.

Set Warnings "-register-all".

Local Open Scope string_scope.
Local Open Scope Z_scope.

(** ** JavaScript values and exceptions *)

Module Js.

(** Primitive values as they occur in a JSON response and as the result
    of a property access; a JS number is an IEEE double. *)
Inductive prim : Type :=
| PUndefined
| PNull
| PBool (b : bool)
| PNum (n : float)
| PStr (s : string).

(** A response object with scalar fields, keyed by property name. *)
Abbreviation JsObject := (gmap string prim).

(** [o.k]: a missing property reads as [undefined]. *)
Definition prop (o : JsObject) (k : string) : prim :=
  default PUndefined (o !! k).

(** The value of [items.length > 0 && items[0]]: either the boolean
    [false] or the first object. *)
Inductive value : Type :=
| VPrim (p : prim)
| VObj (o : JsObject).

(** Property access on a value that is not [null] or [undefined]:
    booleans, numbers and strings box to wrapper objects, which have no
    own data property of the names read here. *)
Definition vprop (v : value) (k : string) : prim :=
  match v with
  | VObj o => prop o k
  | VPrim _ => PUndefined
  end.

(** An [Error] object; only [message] is read by the code modelled. *)
Record Error : Type := mkError { message : string }.

(** The outcome of evaluating an expression that may throw. *)
Inductive result (A : Type) : Type :=
| Ok (a : A)
| Throw (e : Error).
Arguments Ok {A} a.
Arguments Throw {A} e.

#[global] Instance result_ret : MRet result := fun _ a => Ok a.
#[global] Instance result_bind : MBind result := fun _ _ f m =>
  match m with
  | Ok a => f a
  | Throw e => Throw e
  end.

(** [String.prototype.toLowerCase] on the ASCII range (addresses are
    hexadecimal strings); other bytes are left as they are. *)
Definition lower_ascii (c : ascii) : ascii :=
  let n := nat_of_ascii c in
  if (65 <=? n)%nat && (n <=? 90)%nat then ascii_of_nat (n + 32) else c.

Fixpoint toLowerCase (s : string) : string :=
  match s with
  | EmptyString => EmptyString
  | String c s' => String (lower_ascii c) (toLowerCase s')
  end.

(** The double-quote character, for query texts. *)
Definition dq : string := String (ascii_of_nat 34) EmptyString.

Section ToNumber.
(** [StringToNumber] of the runtime (decimal text to the nearest
    double) is a built-in; it is a parameter here. *)
Variable StringToNumber : string -> float.

(** [Number(v)] on a primitive value (ECMAScript ToNumber). *)
Definition Number (v : prim) : float :=
  match v with
  | PUndefined => nan
  | PNull => 0%float
  | PBool true => 1%float
  | PBool false => 0%float
  | PNum n => n
  | PStr s => StringToNumber s
  end.
End ToNumber.

End Js.

(** ** Observables, as the sequence of notifications a subscriber receives *)

Module Rx.
Import Js.

Inductive Notification (A : Type) : Type :=
| Next (a : A)
| Error (e : Js.Error).
Arguments Next {A} a.
Arguments Error {A} e.

(** What a subscriber is delivered, in order.  An error notification
    ends the stream. *)
Definition Observable (A : Type) : Type := list (Notification A).

(** The [map] operator of rxjs: the projection is applied to each
    value; if it throws, the exception is delivered as an error
    notification and the stream ends. *)
Fixpoint map {A B : Type} (f : A -> result B) (o : Observable A) : Observable B :=
  match o with
  | [] => []
  | Next a :: o' =>
      match f a with
      | Ok b => Next b :: map f o'
      | Throw e => [Error e]
      end
  | Error e :: _ => [Error e]
  end.

(** [source.pipe(map(f), map(g))]. *)
Definition pipe2 {A B C : Type} (o : Observable A)
    (f : A -> result B) (g : B -> result C) : Observable C :=
  map g (map f o).

End Rx.

(** ** The client's [Reputation] entity *)

Module Reputation.
Import Js Rx.

Definition Address : Type := string.

(** A query document, as the text handed to [gql] (layout is not
    significant to the parser and is not reproduced). *)
Definition Query : Type := string.

Record IReputationState : Type := mkState {
  rs_address : prim;
  rs_totalSupply : prim
}.

(** The part of an Apollo result the code reads: [r.data.reputationHolders],
    the list of holder objects selected by the query. *)
Record ApolloQueryResult : Type := mkResult {
  data_reputationHolders : list JsObject
}.

(** The interface of the [Arc] context used by the entity.  An entity of
    a single-object query is [null] ([None]) or an object. *)
Record Arc : Type := mkArc {
  getObservable : Query -> Observable ApolloQueryResult;
  _getObservableObject :
    forall A : Type, Query -> (option JsObject -> result A) -> Observable A
}.

Record Reputation : Type := mkReputation {
  address : Address;
  context : Arc;
  state : Observable IReputationState
}.

Definition stateQuery (address : Address) : Query :=
  "{ reputationContract (id: " ++ dq ++ toLowerCase address ++ dq ++
  ") { id, address, totalSupply } }".

(** The closure [itemMap] of the constructor; it captures the
    constructor's [address] argument. *)
Definition itemMap (address : Address) (item : option JsObject)
    : result IReputationState :=
  match item with
  | None =>
      Throw (mkError ("Could not find a reputation contract with address "
                      ++ toLowerCase address))
  | Some item =>
      Ok {| rs_address := prop item "address";
            rs_totalSupply := prop item "totalSupply" |}
  end.

(** [new Reputation(address, context)]. *)
Definition new (address : Address) (context : Arc) : Reputation :=
  {| address := address;
     context := context;
     state := _getObservableObject context IReputationState
                (stateQuery address) (itemMap address) |}.

(** A method body runs against the instance [this]: it may read the
    fields and may assign them, so it maps the instance to a result and
    the instance afterwards. *)
Definition Method (A : Type) : Type := Reputation -> A * Reputation.

Definition retM {A : Type} (a : A) : Method A := fun this => (a, this).

Definition bindM {A B : Type} (m : Method A) (k : A -> Method B) : Method B :=
  fun this => let (a, this') := m this in k a this'.

(** [this.f]. *)
Definition this_get {A : Type} (f : Reputation -> A) : Method A :=
  fun this => (f this, this).

Notation "'let*' x ':=' m 'in' k" := (bindM m (fun x => k))
  (at level 10, x name, m at level 100, k at level 200).

Definition holdersQuery (address contract : Address) : Query :=
  "{ reputationHolders ( where: { address:" ++ dq ++ address ++ dq ++
  ", contract: " ++ dq ++ contract ++ dq ++
  "} ) { id, address, balance,contract } }".

(** [v.k] where [v] may be any value: reading a property of [undefined]
    or [null] throws a [TypeError]. *)
Definition getprop (v : value) (k : string) : result prim :=
  match v with
  | VPrim PUndefined =>
      Throw (mkError ("Cannot read property '" ++ k ++ "' of undefined"))
  | VPrim PNull =>
      Throw (mkError ("Cannot read property '" ++ k ++ "' of null"))
  | _ => Ok (vprop v k)
  end.

(** [items.length > 0 && items[0]]. *)
Definition firstItem (items : list JsObject) : value :=
  if (0 <? length items)%nat
  then match items !! 0%nat with
       | Some o => VObj o
       | None => VPrim PUndefined
       end
  else VPrim (PBool false).

Definition is_undefined (p : prim) : bool :=
  match p with
  | PUndefined => true
  | _ => false
  end.

Section Methods.
Variable StringToNumber : string -> float.

(** [reputationOf(address)]. *)
Definition reputationOf (address : Address) : Method (Observable float) :=
  let* this_address := this_get Reputation.address in
  let* this_context := this_get context in
  let query := holdersQuery address this_address in
  retM (pipe2 (getObservable this_context query)
          (fun r => Ok (data_reputationHolders r))
          (fun items =>
             let item := firstItem items in
             balance ← getprop item "balance";
             if negb (is_undefined balance)
             then balance' ← getprop item "balance";
                  Ok (Number StringToNumber balance')
             else Ok 0%float)).

(** The claimed value for one response, following the words of the
    specification: 0 for an empty holder list or a first holder without a
    balance, the number of the first holder's balance otherwise. *)
Definition spec_reputation (r : ApolloQueryResult) : float :=
  match data_reputationHolders r with
  | [] => 0%float
  | item :: _ =>
      match item !! "balance" with
      | None | Some PUndefined => 0%float
      | Some balance => Number StringToNumber balance
      end
  end.

End Methods.

(** Modelled from the spec: [Arc] ([./arc] is not among the sources).  A
    thin data-access layer translating parameterized GraphQL queries into
    typed observables: the context sends the query to the indexing
    service, [getObservable] delivers each result, and
    [_getObservableObject] delivers the single entity of each result
    translated by the item map. [server] is what the service answers and
    [entity] selects the queried object of an answer. *)
Definition specArc (server : Query -> Observable ApolloQueryResult)
    (entity : Query -> Observable (option JsObject)) : Arc :=
  {| getObservable := server;
     _getObservableObject := fun A q f => Rx.map f (entity q) |}.

End Reputation.

(** ** Strings and paths as [docs/scripts/gen.js] uses them *)

Module Text.

(** [s.split(c)] for a one-character separator: never empty. *)
Fixpoint split (sep : ascii) (s : string) : list string :=
  match s with
  | EmptyString => [EmptyString]
  | String c s' =>
      if Ascii.eqb c sep then EmptyString :: split sep s'
      else match split sep s' with
           | w :: ws => String c w :: ws
           | [] => [String c EmptyString]
           end
  end.

(** The first occurrence of [pat] in [s]: the text before it and the
    text after it. *)
Fixpoint find (pat s : string) : option (string * string) :=
  if String.prefix pat s
  then Some (EmptyString, substring (String.length pat) (String.length s - String.length pat) s)
  else match s with
       | EmptyString => None
       | String c s' =>
           match find pat s' with
           | Some (before, after) => Some (String c before, after)
           | None => None
           end
       end.

(** The replacement text of [String.prototype.replace] for a string
    pattern (GetSubstitution without captures): [$$] stands for a dollar,
    [$&] for the match, [$`] for the text before it and [$'] for the text
    after it; any other character stands for itself. *)
Fixpoint substitution (matched before after repl : string) : string :=
  match repl with
  | String "$" (String "$" r) => String "$" (substitution matched before after r)
  | String "$" (String "&" r) => matched ++ substitution matched before after r
  | String "$" (String "`" r) => before ++ substitution matched before after r
  | String "$" (String "'" r) => after ++ substitution matched before after r
  | String c r => String c (substitution matched before after r)
  | EmptyString => EmptyString
  end.

(** [s.replace(pat, repl)] with a string pattern: only the first
    occurrence is replaced. *)
Definition replace (s pat repl : string) : string :=
  match find pat s with
  | Some (before, after) => before ++ substitution pat before after repl ++ after
  | None => s
  end.

Definition nonempty (s : string) : bool :=
  match s with
  | EmptyString => false
  | _ => true
  end.

(** [path.basename(p)]: the last non-empty segment. *)
Definition basename (p : string) : string :=
  List.last (List.filter nonempty (split "/" p)) EmptyString.

(** [path.dirname(p)] for a path with a directory part. *)
Definition dirname (p : string) : string :=
  match List.removelast (split "/" p) with
  | [] => "."
  | d :: ds => List.fold_left (fun acc seg => acc ++ "/" ++ seg) ds d
  end.

(** One path segment against one pattern segment; [*] stands for any run
    of characters. *)
Fixpoint wild (p s : string) {struct p} : bool :=
  match p with
  | EmptyString => negb (nonempty s)
  | String c p' =>
      if Ascii.eqb c "*"
      then (fix star (s : string) : bool :=
              wild p' s ||
              match s with
              | EmptyString => false
              | String _ s' => star s'
              end) s
      else match s with
           | EmptyString => false
           | String d s' => Ascii.eqb c d && wild p' s'
           end
  end.

Definition dotted (s : string) : bool := String.prefix "." s.

(** A wildcard does not match a leading dot unless the pattern segment
    spells it. *)
Definition segment_matches (p s : string) : bool :=
  if dotted s && negb (dotted p) then false else wild p s.

Fixpoint segments_match (ps ss : list string) : bool :=
  match ps, ss with
  | [], [] => true
  | p :: ps', s :: ss' => segment_matches p s && segments_match ps' ss'
  | _, _ => false
  end.

(** Does the path match the glob pattern, segment by segment? *)
Definition glob (pattern path : string) : bool :=
  segments_match (split "/" pattern) (split "/" path).

(** Does the character occur in the text? *)
Fixpoint mentions (c : ascii) (s : string) : bool :=
  match s with
  | EmptyString => false
  | String d s' => Ascii.eqb d c || mentions c s'
  end.

(** Is [p] the directory [dir] or a path below it? *)
Definition under (dir p : string) : bool :=
  String.eqb p dir || String.prefix (dir ++ "/") p.

End Text.

(** ** The documentation generator, [docs/scripts/gen.js] *)

Module Gen.
Import Text.

(** Parsed JSON, as [JSON.parse] returns it. *)
Inductive Json : Type :=
| JNull
| JBool (b : bool)
| JNum (n : float)
| JStr (s : string)
| JArr (l : list Json)
| JObj (l : list (string * Json)).

(** One entry of the compiler's [output.contracts]. *)
Record ContractData : Type := mkData {
  interface : string;
  metadata : string;
  gasEstimates : option Json
}.

(** An element of the list [compile] returns; [contractName] is
    [undefined] ([None]) when the key has no second part. *)
Record Contract : Type := mkContract {
  file : string;
  contractName : option string;
  data : ContractData
}.

(** What the script acts on: the files (path text to contents;
    directories are implicit in the paths, and different spellings of one
    path are not identified) and the lines echoed so far. *)
Record World : Type := mkWorld {
  fs : gmap string string;
  stdout : list string
}.

(** [files.indexOf(x)]. *)
Fixpoint indexOf (l : list string) (x : string) : Z :=
  match l with
  | [] => -1
  | y :: l' =>
      if String.eqb y x then 0
      else let i := indexOf l' x in if i =? -1 then -1 else i + 1
  end.

(** A value interpolated in a template literal. *)
Definition interpolate (name : option string) : string :=
  match name with
  | Some n => n
  | None => "undefined"
  end.

(** The closure [destFn] of the script: it receives either 'toc' or a
    file path and a contract name. *)
Definition destFn (file : string) (name : option string) : string :=
  if String.eqb file "toc" then "./docs/ref/README.md"
  else replace (replace file "./contracts" "./docs/ref")
         (basename file) (interpolate name ++ ".md").

Definition headerFn (file : string) (name : option string) : string :=
  if String.eqb file "toc" then "./docs/headers/README.md"
  else replace (replace file "./contracts" "./docs/headers")
         (basename file) (interpolate name ++ ".md").

Section Script.

(** Thrown values, with what [e.stack] reads on them, and the errors the
    runtime itself raises. *)
Variable exn : Type.
Variable stack : exn -> string.
Variable TypeError : string -> exn.
Variable ENOENT : string -> exn.

(** How a statement ends: normally, by a throw, or by [shell.exit]. *)
Inductive completion (A : Type) : Type :=
| Normal (a : A)
| Thrown (e : exn)
| Exited (code : Z).
Arguments Normal {A} a.
Arguments Thrown {A} e.
Arguments Exited {A} code.

(** How a call into a library ends: it returns or it throws. *)
Inductive outcome (A : Type) : Type :=
| Returned (a : A)
| Raised (e : exn).
Arguments Returned {A} a.
Arguments Raised {A} e.

(** The libraries the script calls: the Solidity compiler (sources,
    import callback; the result lists [output.contracts] in key order),
    [JSON.parse], [path.resolve] and the two templates of
    [templates.js].  The table-of-contents text is
    [tableOfContentsTemplate(hierarchy(compileOutput), header)]; the
    nested object built by the local function [hierarchy] (from the
    destination function and the table's own destination) is only handed
    to that template and is kept with it. *)
Variable solc_compile :
  gmap string string -> (string -> outcome string) ->
  outcome (list (string * ContractData)).
Variable JSON_parse : string -> outcome Json.
Variable path_resolve : string -> string -> string.
Variable contractTemplate :
  string -> option string -> Json -> Json -> option Json -> string ->
  outcome string.
Variable tableOfContentsTemplate :
  (string -> option string -> string) -> string -> list Contract ->
  string -> outcome string.

(** Statements of the script: they act on the world and complete. *)
Definition M (A : Type) : Type := World -> World * completion A.

Definition ret {A : Type} (a : A) : M A := fun w => (w, Normal a).

Definition bind {A B : Type} (m : M A) (k : A -> M B) : M B :=
  fun w =>
    match m w with
    | (w', Normal a) => k a w'
    | (w', Thrown e) => (w', Thrown e)
    | (w', Exited code) => (w', Exited code)
    end.

Notation "'let*' x ':=' m 'in' k" := (bind m (fun x => k))
  (at level 10, x name, m at level 100, k at level 200).

(** A library call that does not touch the world. *)
Definition lift {A : Type} (c : outcome A) : M A :=
  fun w =>
    match c with
    | Returned a => (w, Normal a)
    | Raised e => (w, Thrown e)
    end.


(** [try { body } catch (e) { handler }]: a process exit is not caught. *)
Definition try_catch {A : Type} (body : M A) (handler : exn -> M A) : M A :=
  fun w =>
    match body w with
    | (w', Thrown e) => handler e w'
    | r => r
    end.

(** [shell.echo(line)]. *)
Definition echo (line : string) : M unit :=
  fun w => ({| fs := fs w; stdout := stdout w ++ [line] |}, Normal tt).

(** The helper [print], on the strings it is called with. *)
Definition print (o : string) : M unit := echo o.

(** [shell.exit(code)]. *)
Definition exit {A : Type} (code : Z) : M A := fun w => (w, Exited code).

(** [shell.rm('-rf', dir)]. *)
Definition rm_rf (dir : string) : M unit :=
  fun w =>
    ({| fs := filter (fun kv => under dir (fst kv) = false) (fs w);
        stdout := stdout w |}, Normal tt).

(** [shell.ls(pattern)] for a glob pattern: the matching paths, sorted;
    none when nothing matches. *)
Definition ls (pattern : string) : M (list string) :=
  fun w =>
    (w, Normal (merge_sort (fun a b => Is_true (String.leb a b))
                  (List.filter (glob pattern) (List.map fst (map_to_list (fs w)))))).

(** [shell.mkdir('-p', dir)]. *)
Definition mkdir_p (dir : string) : M unit := ret tt.

Definition existsSync (p : string) : M bool :=
  fun w => (w, Normal (bool_decide (is_Some (fs w !! p)))).

Definition readFileSync (p : string) : M string :=
  fun w =>
    match fs w !! p with
    | Some c => (w, Normal c)
    | None => (w, Thrown (ENOENT p))
    end.

Definition writeFileSync (p contents : string) : M unit :=
  fun w => ({| fs := <[p := contents]> (fs w); stdout := stdout w |}, Normal tt).

(** [l.reduce(f, init)] and [l.forEach(f)] with statements as bodies. *)
Fixpoint reduceM {A B : Type} (f : B -> A -> M B) (l : list A) (acc : B) : M B :=
  match l with
  | [] => ret acc
  | x :: l' => let* acc' := f acc x in reduceM f l' acc'
  end.

Fixpoint forEachM {A : Type} (f : A -> M unit) (l : list A) : M unit :=
  match l with
  | [] => ret tt
  | x :: l' => let* _ := f x in forEachM f l'
  end.

(** The import callback handed to the compiler, which calls it while
    it runs: it reads the files as they are then and returns
    [{contents}] or throws. *)
Definition importCallback (w : World) (file : string) : outcome string :=
  let node_path := path_resolve "node_modules" file in
  let target :=
    if bool_decide (is_Some (fs w !! node_path)) then node_path else file in
  match fs w !! target with
  | Some contents => Returned contents
  | None => Raised (ENOENT target)
  end.

(** [contract.split(':')] read at 0 and at 1. *)
Definition entryOf (kv : string * ContractData) : Contract :=
  let split := Text.split ":" (fst kv) in
  {| file := List.hd EmptyString split;
     contractName := split !! 1%nat;
     data := snd kv |}.

Definition isInput (files : list string) (c : Contract) : bool :=
  negb (indexOf files (file c) =? -1).

Definition compile (files : list string) : M (list Contract) :=
  let* sources :=
    reduceM (fun acc file =>
               let* contents := readFileSync file in
               ret (<[file := contents]> acc)) files ∅ in
  let* output :=
    (fun w => lift (solc_compile sources (importCallback w)) w) in
  ret (List.filter (isInput files) (List.map entryOf output)).

(** [v.k] on a parsed value ([None] is [undefined]). *)
Definition member (v : option Json) (k : string) : outcome (option Json) :=
  match v with
  | None => Raised (TypeError ("Cannot read property '" ++ k ++ "' of undefined"))
  | Some JNull => Raised (TypeError ("Cannot read property '" ++ k ++ "' of null"))
  | Some (JObj l) => Returned (snd <$> List.find (fun kv => String.eqb (fst kv) k) l)
  | Some _ => Returned None
  end.

Definition truthy (v : option Json) : bool :=
  match v with
  | None | Some JNull => false
  | Some (JBool b) => b
  | Some (JNum n) => negb (PrimFloat.eqb n 0 || PrimFloat.is_nan n)
  | Some (JStr s) => nonempty s
  | Some _ => true
  end.

Definition readHeader (header : string) : M string :=
  let* found := existsSync header in
  if found : bool then readFileSync header else ret EmptyString.

(** The body of the [forEach] in [render]. *)
Definition renderContract
    (destFn headerFn : string -> option string -> string)
    (contractTemplate :
       string -> option string -> Json -> Json -> option Json -> string ->
       outcome string)
    (c : Contract) : M unit :=
  let* abi := lift (JSON_parse (interface (data c))) in
  let* metadata :=
    if nonempty (metadata (data c))
    then let* parsed := lift (JSON_parse (metadata (data c))) in
         lift (member (Some parsed) "output")
    else ret (Some (JObj [])) in
  let* devdoc0 := lift (member metadata "devdoc") in
  let devdoc := if truthy devdoc0 then default (JObj []) devdoc0 else JObj [] in
  let destination := destFn (file c) (contractName c) in
  let header := headerFn (file c) (contractName c) in
  let* headerText := readHeader header in
  let* renderedContract :=
    lift (contractTemplate (file c) (contractName c) abi devdoc
            (gasEstimates (data c)) headerText) in
  let* _ := mkdir_p (dirname destination) in
  writeFileSync destination renderedContract.

Definition render (compileOutput : list Contract)
    (destFn headerFn : string -> option string -> string)
    (contractTemplate :
       string -> option string -> Json -> Json -> option Json -> string ->
       outcome string)
    (tableOfContentsTemplate :
       (string -> option string -> string) -> string -> list Contract ->
       string -> outcome string) : M unit :=
  let tocDest := destFn "toc" None in
  let tocHeader := headerFn "toc" None in
  let* tocHeaderText := readHeader tocHeader in
  let* toc := lift (tableOfContentsTemplate destFn tocDest compileOutput tocHeaderText) in
  let* _ := mkdir_p (dirname tocDest) in
  let* _ := writeFileSync tocDest toc in
  forEachM (renderContract destFn headerFn contractTemplate) compileOutput.

(** The statements of the [try] block. *)
Definition body : M unit :=
  let* _ := rm_rf "./docs/ref" in
  let* files := ls "./contracts/*/*.sol" in
  let* _ := print ("Compiling " ++ pretty (length files) ++ " files...") in
  let* output := compile files in
  let* _ := print ("Rendering " ++ pretty (length output) ++ " contracts...") in
  let* _ := render output destFn headerFn contractTemplate tableOfContentsTemplate in
  exit 0.

(** The [catch] block. *)
Definition handler (e : exn) : M unit :=
  let* _ := echo "An error occurred" in
  let* _ := echo (stack e) in
  exit 1.

(** The whole script. *)
Definition script : M unit := try_catch body handler.

(** The status the process ends with. *)
Definition exitStatus (r : World * completion unit) : Z :=
  match snd r with
  | Exited code => code
  | Normal _ => 0
  | Thrown _ => 1
  end.

(** *** Stages of a run, for stating what the script does *)

(** The world once [shell.rm('-rf', './docs/ref')] has run. *)
Definition cleared (w : World) : World := fst (rm_rf "./docs/ref" w).

(** The files [shell.ls] then lists. *)
Definition listed (w : World) : list string :=
  match snd (ls "./contracts/*/*.sol" (cleared w)) with
  | Normal files => files
  | _ => []
  end.

(** The world in which [compile] starts, and the one in which [render]
    starts when [compile] has returned [output] in [w]. *)
Definition compiling (w : World) : World :=
  {| fs := fs (cleared w);
     stdout := stdout w ++ ["Compiling " ++ pretty (length (listed w)) ++ " files..."] |}.

Definition rendering (output : list Contract) (w : World) : World :=
  {| fs := fs w;
     stdout := stdout w ++ ["Rendering " ++ pretty (length output) ++ " contracts..."] |}.

(** The world once the [catch] block has run for [e]. *)
Definition logged (e : exn) (w : World) : World :=
  {| fs := fs w; stdout := stdout w ++ ["An error occurred"; stack e] |}.

(** The compiler input read from the files: the sources, or the first
    file that cannot be read. *)
Fixpoint sourcesOf (files : gmap string string) (inputs : list string)
    (acc : gmap string string) : string + gmap string string :=
  match inputs with
  | [] => inr acc
  | file :: inputs' =>
      match files !! file with
      | Some contents => sourcesOf files inputs' (<[file := contents]> acc)
      | None => inl file
      end
  end.

(** A statement that never ends the process. *)
Definition never_exits {A : Type} (m : M A) : Prop :=
  forall w w' code, m w <> (w', Exited code).


(** A statement that removes no file. *)
Definition keeps_files {A : Type} (m : M A) : Prop :=
  forall w p, is_Some (fs w !! p) -> is_Some (fs (fst (m w)) !! p).

End Script.

Arguments Normal {exn A} a.
Arguments Thrown {exn A} e.
Arguments Exited {exn A} code.
Arguments Returned {exn A} a.
Arguments Raised {exn A} e.

End Gen.

(** ** React elements and what they render to *)

Module React.
Import Js Rx.

(** What a [Subscribe] hands to its render function. *)
Record IObservableState (A : Type) : Type := mkObservableState {
  error : option Js.Error;
  data : option A
}.
Arguments mkObservableState {A} error data.
Arguments error {A} _.
Arguments data {A} _.

(** The state after the notifications delivered so far. *)
Definition observe {A : Type} (o : Observable A) : IObservableState A :=
  List.fold_left
    (fun st n =>
       match n with
       | Next a => {| error := error st; data := Some a |}
       | Error e => {| error := Some e; data := data st |}
       end)
    o {| error := None; data := None |}.

(** A value of a property of an imported component. *)
Inductive PropValue : Type :=
| PropStr (s : string)
| PropBool (b : bool)
| PropKeys (keys : list string).

(** An element tree as the component code builds it.  [undefined] and
    booleans render nothing; a host element has a tag, attributes and
    children; an imported component is kept by name with its properties.
    A [Subscribe] element holds its observable and its render function:
    building the element does not call the function. *)
Inductive Node : Type :=
| NUndefined
| NBool (b : bool)
| NText (s : string)
| NNum (n : float)
| NArray (items : list Node)
| NHost (tag : string) (attrs : list (string * string)) (children : list Node)
| NComponent (name : string) (props : list (string * PropValue))
| NSubscribe (A : Type) (observable : Observable A)
    (children : IObservableState A -> result Node).

(** The rendered tree. *)
Inductive Dom : Type :=
| DText (s : string)
| DNum (n : float)
| DHost (tag : string) (attrs : list (string * string)) (children : list Dom)
| DComponent (name : string) (props : list (string * PropValue)).

(** Modelled from the spec: [Subscribe] ([components/Shared/Subscribe]
    is not among the sources).  Errors surface at the UI subscription
    boundary: a mounted [Subscribe] subscribes to its observable and
    renders what its render function returns for the observed state. *)
Fixpoint mount (n : Node) : result (list Dom) :=
  match n with
  | NUndefined | NBool _ => Ok []
  | NText s => Ok [DText s]
  | NNum x => Ok [DNum x]
  | NArray items =>
      (fix mountAll (l : list Node) : result (list Dom) :=
         match l with
         | [] => Ok []
         | x :: l' =>
             match mount x with
             | Ok d => match mountAll l' with
                       | Ok ds => Ok (d ++ ds)%list
                       | Throw e => Throw e
                       end
             | Throw e => Throw e
             end
         end) items
  | NHost tag attrs children =>
      match (fix mountAll (l : list Node) : result (list Dom) :=
               match l with
               | [] => Ok []
               | x :: l' =>
                   match mount x with
                   | Ok d => match mountAll l' with
                             | Ok ds => Ok (d ++ ds)%list
                             | Throw e => Throw e
                             end
                   | Throw e => Throw e
                   end
               end) children with
      | Ok ds => Ok [DHost tag attrs ds]
      | Throw e => Throw e
      end
  | NComponent name props => Ok [DComponent name props]
  | NSubscribe A observable children =>
      match children (observe observable) with
      | Ok n' => mount n'
      | Throw e => Throw e
      end
  end.

(** The class name a stylesheet module exports under a key. *)
Definition css (key : string) : string := key.

End React.

(** ** [DaoMembersContainer.tsx] *)

Module DaoMembersContainer.
Import Js Rx React.

Record IMemberState : Type := mkMemberState {
  address : string;
  reputation : float
}.

(** A [Member] of the client library, as far as the component reads it. *)
Record Member : Type := mkMember {
  state : Observable IMemberState
}.

Record IDAOState : Type := mkDAOState {
  dao_address : string
}.

(** A profile of the profiles reducer: its social URLs by provider. *)
Record Profile : Type := mkProfile {
  socialURLs : gmap string string
}.

Record IRootState : Type := mkRootState {
  root_profiles : gmap string Profile
}.

(** The properties of the component; [dao] is [undefined] ([None]) when
    the parent element does not pass it. *)
Record IProps : Type := mkProps {
  dao : option IDAOState;
  members : list Member;
  profiles : gmap string Profile
}.

Record OwnProps : Type := mkOwnProps {
  own_dao : option IDAOState;
  own_members : list Member
}.

Definition mapStateToProps (state : IRootState) (ownProps : OwnProps) : IProps :=
  {| dao := own_dao ownProps;
     members := own_members ownProps;
     profiles := root_profiles state |}.

Definition div (children : list Node) : Node := NHost "div" [] children.

Definition OAuthLogin (provider accountAddress : string) (profile : Profile) : Node :=
  NComponent "OAuthLogin"
    [("editing", PropBool false); ("provider", PropStr provider);
     ("accountAddress", PropStr accountAddress);
     ("profile", PropKeys (List.map fst (map_to_list (socialURLs profile))));
     ("className", PropStr (css "socialButton"))].

(** The render function given to the [Subscribe] of one member. *)
Definition memberView (dao : option IDAOState) (profiles : gmap string Profile)
    (state : IObservableState IMemberState) : result Node :=
  match error state with
  | Some error => Ok (div [NText (message error)])
  | None =>
      match data state with
      | Some memberState =>
          let profile := profiles !! address memberState in
          profileBlock ←
            match profile with
            | Some profile =>
                daoAddress ←
                  match dao with
                  | Some dao => Ok (dao_address dao)
                  | None =>
                      Throw (mkError "Cannot read property 'address' of undefined")
                  end;
                Ok (div
                      [NComponent "AccountProfileName"
                         [("accountProfile",
                           PropKeys (List.map fst (map_to_list (socialURLs profile))));
                          ("daoAvatarAddress", PropStr daoAddress)];
                       (if (length (map_to_list (socialURLs profile)) =? 0)%nat
                        then NText EmptyString
                        else NHost "span" []
                               [OAuthLogin "facebook" (address memberState) profile;
                                OAuthLogin "twitter" (address memberState) profile;
                                OAuthLogin "github" (address memberState) profile]);
                       NHost "br" [] []])
            | None => Ok (NText EmptyString)
            end;
          Ok (NHost "div"
                [("className", css "member" ++ " " ++ css "clearfix");
                 ("key", "member_" ++ address memberState)]
                [NComponent "AccountImage"
                   [("accountAddress", PropStr (address memberState));
                    ("className", PropStr "membersPage")];
                 NHost "div" [("className", css "memberAddress")]
                   [profileBlock; div [NText (address memberState)]];
                 div [NText "Reputation: ";
                      NHost "span" [] [NNum (reputation memberState)]]])
      | None => Ok (div [NText "...loading.."])
      end
  end.

(** [DaoMembersContainer.render].  The callback given to [members.map]
    has a block body whose single statement is the [Subscribe]
    expression; the block has no [return], so the callback returns
    [undefined] for every member. *)
Definition render (props : IProps) : Node :=
  let membersHTML :=
    List.map
      (fun member : Member =>
         let _ := NSubscribe IMemberState (state member)
                    (memberView (dao props) (profiles props)) in
         NUndefined)
      (members props) in
  NHost "div" [("className", css "membersContainer")] [NArray membersHTML].

Section DefaultExport.

(** [new DAO(daoAddress, arc).members()] of the client library, and the
    state of the redux store the connected component reads. *)
Variable DAO_members : string -> Observable (list Member).
Variable store : IRootState.

(** [<ConnectedDaoMembersContainer members={...} />]: the component
    rendered with the properties [mapStateToProps] computes; no [dao] is
    passed. *)
Definition ConnectedDaoMembersContainer (members : list Member) : Node :=
  render (mapStateToProps store {| own_dao := None; own_members := members |}).

(** The default export; [daoAvatarAddress] is the route parameter
    ([None] when the route has none). *)
Definition default (daoAvatarAddress : option string) : result Node :=
  match daoAvatarAddress with
  | Some daoAddress =>
      if Text.nonempty daoAddress
      then Ok (NSubscribe (list Member) (DAO_members daoAddress)
                 (fun state =>
                    match error state with
                    | Some error => Ok (div [NText (message error)])
                    | None =>
                        match data state with
                        | Some data => Ok (ConnectedDaoMembersContainer data)
                        | None =>
                            Ok (NHost "div" [("className", css "loading")]
                                  [NHost "img"
                                     [("src", "/assets/images/Icon/Loading-black.svg")]
                                     []])
                        end
                    end))
      else Throw (mkError "No dao address specified ")
  | None => Throw (mkError "No dao address specified ")
  end.

End DefaultExport.

End DaoMembersContainer.

(** ** [LockRow.tsx] *)

Module LockRow.
Import Js React.

(** The lock and the scheme parameters, with the numeric fields as the
    numbers [Number(...)] reads from them (seconds, counts). *)
Record ICL4RLock : Type := mkLock {
  lockingId : Z;
  lockingTime : Z;
  period : Z;
  amount : string;
  released : bool;
  releasedAt : Z
}.

Record ICL4RParams : Type := mkParams {
  batchTime : Z;
  startTime : Z;
  tokenSymbol : string
}.

(** An object property: the object's identity and its contents.  The
    dependency list of a memo is compared by identity. *)
Record Ref (A : Type) : Type := mkRef {
  oid : nat;
  obj : A
}.
Arguments mkRef {A} oid obj.
Arguments oid {A} _.
Arguments obj {A} _.

Record IProps : Type := mkProps {
  schemeParams : ICL4RParams;
  lockData : Ref ICL4RLock;
  getLockingBatch : Z -> Z -> Z -> Z;
  durations : list (string * string);
  currentLockingBatch : Z;
  isLockingEnded : bool
}.

(** The hooks of one mounted row, in call order: three state cells and
    two memo cells (the dependency a value was computed for, and the
    value). *)
Record Hooks : Type := mkHooks {
  isReleasing : bool;
  isExtending : bool;
  lockDuration : Z;
  releasableMemo : option (nat * Z);
  releaseMemo : option (nat * bool)
}.

(** The hooks of a row that has not rendered yet. *)
Definition initialHooks : Hooks :=
  {| isReleasing := false;
     isExtending := false;
     lockDuration := 1;
     releasableMemo := None;
     releaseMemo := None |}.

(** A render runs against the hooks and reads the clock: the state is
    the hooks and the number of clock readings taken so far. *)
Record RenderState : Type := mkRenderState {
  hooks : Hooks;
  readings : nat
}.

Section Component.

(** The instant, in milliseconds, that the n-th evaluation of [moment()]
    yields; the texts [format("DD.MM.YYYY HH:mm")] and
    [numberWithCommas(formatTokens(new BN(amount)))] produce. *)
Variable clock : nat -> Z.
Variable format : Z -> string.
Variable formatAmount : string -> string.

Definition Render (A : Type) : Type := RenderState -> A * RenderState.

Definition ret {A : Type} (a : A) : Render A := fun st => (a, st).

Definition bind {A B : Type} (m : Render A) (k : A -> Render B) : Render B :=
  fun st => let (a, st') := m st in k a st'.

Notation "'let*' x ':=' m 'in' k" := (bind m (fun x => k))
  (at level 10, x name, m at level 100, k at level 200).

(** [moment()]: the current instant. *)
Definition moment : Render Z :=
  fun st => (clock (readings st), {| hooks := hooks st; readings := S (readings st) |}).

(** [moment.unix(seconds)] and [m.add(n, 'seconds')], in milliseconds. *)
Definition unix (seconds : Z) : Z := seconds * 1000.
Definition add_seconds (m n : Z) : Z := m + n * 1000.

(** [React.useMemo(compute, [dep])] on a memo cell: the stored value is
    returned when it was computed for the same dependency; otherwise
    [compute] runs and its value is stored. *)
Definition useMemo {A : Type} (cell : Hooks -> option (nat * A))
    (store : option (nat * A) -> Hooks -> Hooks)
    (compute : Render A) (dep : nat) : Render A :=
  fun st =>
    let recompute :=
      let (v, st') := compute st in
      (v, {| hooks := store (Some (dep, v)) (hooks st'); readings := readings st' |}) in
    match cell (hooks st) with
    | Some (d, v) => if (d =? dep)%nat then (v, st) else recompute
    | None => recompute
    end.

Definition storeReleasable (m : option (nat * Z)) (h : Hooks) : Hooks :=
  {| isReleasing := isReleasing h; isExtending := isExtending h;
     lockDuration := lockDuration h;
     releasableMemo := m; releaseMemo := releaseMemo h |}.

Definition storeRelease (m : option (nat * bool)) (h : Hooks) : Hooks :=
  {| isReleasing := isReleasing h; isExtending := isExtending h;
     lockDuration := lockDuration h;
     releasableMemo := releasableMemo h; releaseMemo := m |}.

Definition td (children : list Node) : Node := NHost "td" [] children.

Definition disabledAttr (h : Hooks) : list (string * string) :=
  if isReleasing h || isExtending h then [("disabled", "true")] else [].

(** [classNames({[css.actionButton]: true, [css.disabled]: ...})]. *)
Definition actionButtonClass (h : Hooks) : string :=
  if isReleasing h || isExtending h
  then css "actionButton" ++ " " ++ css "disabled"
  else css "actionButton".

Definition releaseButton (h : Hooks) : Node :=
  NHost "button" (("className", actionButtonClass h) :: disabledAttr h)
    [NText "Release"].

Definition extendControl (props : IProps) (h : Hooks) : Node :=
  NHost "div" [("className", css "extendWrapper")]
    [NHost "button" (("className", actionButtonClass h) :: disabledAttr h)
       [NText "Extend Lock"];
     NHost "select" (disabledAttr h)
       (List.map (fun d => NHost "option" [("value", fst d)] [NText (snd d)])
          (durations props))].

(** The component function: one render of the row. *)
Definition LockRow (props : IProps) : Render Node :=
  let lock := obj (lockData props) in
  let* releasable :=
    useMemo releasableMemo storeReleasable
      (ret (add_seconds (unix (lockingTime lock))
              (period lock * batchTime (schemeParams props))))
      (oid (lockData props)) in
  let* release :=
    useMemo releaseMemo storeRelease
      (let* now := moment in
       ret ((releasable <=? now) && negb (released lock)))
      (oid (lockData props)) in
  let lockingBatch :=
    getLockingBatch props (lockingTime lock)
      (startTime (schemeParams props)) (batchTime (schemeParams props)) in
  let* releaseCell :=
    fun st =>
      (if negb (released lock)
       then (if release : bool then releaseButton (hooks st) else NBool false)
       else NBool false, st) in
  let* extendCell :=
    if negb (isLockingEnded props)
    then let* now := moment in
         fun st =>
           (if now <=? releasable then extendControl props (hooks st)
            else NBool false, st)
    else ret (NBool false) in
  ret (NHost "tr" [("className", css "row")]
         [td [NText (pretty lockingBatch)];
          td [NText (formatAmount (amount lock) ++ " "
                     ++ tokenSymbol (schemeParams props))];
          td [NText (pretty (period lock)); NText " Periods"];
          td [if negb (released lock)
              then NHost "span" [] [NText (format releasable)]
              else NHost "div" [("className", css "releasedLabel")]
                     [NHost "span" [] [NText "Released"];
                      NHost "span" [] [NText (format (unix (releasedAt lock)))]]];
          td [NHost "div" [("className", css "actionsWrapper")]
                [releaseCell; extendCell]]]).

(** The two children of the actions wrapper, as rendered: the Release
    button and the Extend control, each present or not. *)
Definition actionCells (tree : Node) : list Node :=
  match tree with
  | NHost _ _ [_; _; _; _; NHost _ _ [NHost _ _ cells]] => cells
  | _ => []
  end.

Definition shown (cell : Node) : bool :=
  match cell with
  | NHost _ _ _ => true
  | _ => false
  end.

(** Is the Release button rendered?  Is the Extend control rendered? *)
Definition showsRelease (tree : Node) : bool :=
  match actionCells tree with
  | releaseCell :: _ => shown releaseCell
  | [] => false
  end.

Definition showsExtend (tree : Node) : bool :=
  match actionCells tree with
  | _ :: extendCell :: _ => shown extendCell
  | _ => false
  end.

(** The value a memo cell holds for a dependency, if any. *)
Definition memoised {A : Type} (cell : option (nat * A)) (dep : nat) : option A :=
  match cell with
  | Some (d, v) => if (d =? dep)%nat then Some v else None
  | None => None
  end.

(** The releasable instant of the properties, in milliseconds:
    [lockingTime] plus [period] times [batchTime] seconds. *)
Definition releasableTime (props : IProps) : Z :=
  (lockingTime (obj (lockData props))
   + period (obj (lockData props)) * batchTime (schemeParams props)) * 1000.

End Component.

End LockRow.

(** ** Concrete inputs

    A small repository, a stand-in compiler and stand-in templates, used
    to run the generator, and concrete responses, members and locks used
    to run the entity and the components. *)

Module Demo.
Import Text.

(** Thrown values are their stack text. *)
Definition stack (e : string) : string := e.
Definition TypeError (msg : string) : string := "TypeError: " ++ msg.
Definition ENOENT (p : string) : string := "ENOENT: no such file or directory, open " ++ p.

(** The file name without its directory and without [.sol]. *)
Definition stem (p : string) : string :=
  List.hd EmptyString (split "." (basename p)).

(** A stand-in compiler: it resolves one import through the callback and
    reports one contract for it and one per source file, whose interface
    is the file's text. *)
Definition solc_compile (sources : gmap string string)
    (findImports : string -> Gen.outcome string string)
    : Gen.outcome string (list (string * Gen.ContractData)) :=
  match findImports "zeppelin/Ownable.sol" with
  | Gen.Raised e => Gen.Raised e
  | Gen.Returned c =>
      Gen.Returned
        (("zeppelin/Ownable.sol:Ownable", Gen.mkData c EmptyString None)
         :: List.map (fun kv => (fst kv ++ ":" ++ stem (fst kv),
                                 Gen.mkData (snd kv) EmptyString None))
              (map_to_list sources))
  end.

(** A stand-in parser: it accepts the empty array only. *)
Definition JSON_parse (s : string) : Gen.outcome string Gen.Json :=
  if String.eqb s "[]" then Gen.Returned (Gen.JArr [])
  else Gen.Raised ("SyntaxError: Unexpected token in JSON: " ++ s).

Definition path_resolve (a b : string) : string := "/repo/" ++ a ++ "/" ++ b.

Definition contractTemplate (file : string) (name : option string)
    (abi devdoc : Gen.Json) (gas : option Gen.Json) (header : string)
    : Gen.outcome string string :=
  Gen.Returned (header ++ "# " ++ Gen.interpolate name).

Definition tableOfContentsTemplate (destFn : string -> option string -> string)
    (tocDest : string) (compileOutput : list Gen.Contract) (header : string)
    : Gen.outcome string string :=
  Gen.Returned (header ++ "# Contents").

(** The generator on the stand-ins. *)
Definition script : Gen.M string unit :=
  Gen.script string stack TypeError ENOENT solc_compile JSON_parse path_resolve
    contractTemplate tableOfContentsTemplate.

Definition compile (files : list string) : Gen.M string (list Gen.Contract) :=
  Gen.compile string ENOENT solc_compile path_resolve files.

(** A repository with one contract one directory below [contracts/],
    one directly in it, one two directories below it, a dependency under
    [node_modules], and a page left from an earlier run. *)
Definition repository : gmap string string :=
  list_to_map
    [("./contracts/a/Ok.sol", "[]");
     ("./contracts/Top.sol", "[]");
     ("./contracts/a/b/Deep.sol", "[]");
     ("/repo/node_modules/zeppelin/Ownable.sol", "[]");
     ("./docs/ref/old.md", "stale")].

(** The same with a second contract whose interface does not parse. *)
Definition brokenRepository : gmap string string :=
  <["./contracts/a/Zed.sol" := "oops"]> repository.

Definition world (files : gmap string string) : Gen.World :=
  {| Gen.fs := files; Gen.stdout := [] |}.

(** The files of a world, sorted by path, for reading a result. *)
Definition listing (w : Gen.World) : list (string * string) :=
  merge_sort (fun a b => Is_true (String.leb (fst a) (fst b)))
    (map_to_list (Gen.fs w)).

(** A stand-in for the built-in conversion of text to a number, exact on
    short decimal numerals; other text is not a number. *)
Fixpoint digits (s : string) (acc : Z) : option Z :=
  match s with
  | EmptyString => Some acc
  | String c s' =>
      let n := Z.of_nat (nat_of_ascii c) in
      if (48 <=? n) && (n <=? 57) then digits s' (10 * acc + (n - 48)) else None
  end.

Definition StringToNumber (s : string) : float :=
  match s with
  | EmptyString => 0%float
  | _ => match digits s 0 with
         | Some z => PrimFloat.of_uint63 (Uint63.of_Z z)
         | None => nan
         end
  end.

(** Holder objects of a response: one with a balance, one without. *)
Definition holder : Js.JsObject :=
  list_to_map [("id", Js.PStr "h1"); ("address", Js.PStr "0xbeef");
               ("balance", Js.PStr "42"); ("contract", Js.PStr "0xabc")].

Definition holderWithoutBalance : Js.JsObject :=
  list_to_map [("id", Js.PStr "h2"); ("address", Js.PStr "0xbeef")].

(** A reputation contract entity. *)
Definition contractItem : Js.JsObject :=
  list_to_map [("id", Js.PStr "0xabc"); ("address", Js.PStr "0xabc");
               ("totalSupply", Js.PNum 1000)].

(** A service that answers the holders query with a holder, then with no
    holder, then with a holder that has no balance, and the entity query
    with the entity and then with [null]. *)
Definition arc : Reputation.Arc :=
  Reputation.specArc
    (fun _ => [Rx.Next (Reputation.mkResult [holder]);
               Rx.Next (Reputation.mkResult []);
               Rx.Next (Reputation.mkResult [holderWithoutBalance; holder])])
    (fun _ => [Rx.Next (Some contractItem); Rx.Next None;
               Rx.Next (Some contractItem)]).

Definition reputation : Reputation.Reputation := Reputation.new "0xABC" arc.

(** A member whose state observable delivers an error, and one whose
    state observable delivers a state. *)
Definition failingMember : DaoMembersContainer.Member :=
  DaoMembersContainer.mkMember [Rx.Error (Js.mkError "Could not find member")].

Definition loadedMember : DaoMembersContainer.Member :=
  DaoMembersContainer.mkMember
    [Rx.Next (DaoMembersContainer.mkMemberState "0xbeef" 5)].

Definition store : DaoMembersContainer.IRootState :=
  DaoMembersContainer.mkRootState ∅.

(** A lock taken at second 1000 for 2 periods of 100 seconds: releasable
    at second 1200. *)
Definition lock : LockRow.ICL4RLock :=
  {| LockRow.lockingId := 7; LockRow.lockingTime := 1000; LockRow.period := 2;
     LockRow.amount := "5000"; LockRow.released := false;
     LockRow.releasedAt := 0 |}.

Definition lockProps : LockRow.IProps :=
  {| LockRow.schemeParams :=
       {| LockRow.batchTime := 100; LockRow.startTime := 0;
          LockRow.tokenSymbol := "GEN" |};
     LockRow.lockData := LockRow.mkRef 1%nat lock;
     LockRow.getLockingBatch := fun t s b => (t - s) / b;
     LockRow.durations := [("1", "1 period")];
     LockRow.currentLockingBatch := 10;
     LockRow.isLockingEnded := false |}.

(** The same row for a lock that has been released. *)
Definition releasedProps : LockRow.IProps :=
  {| LockRow.schemeParams := LockRow.schemeParams lockProps;
     LockRow.lockData :=
       LockRow.mkRef 2%nat
         {| LockRow.lockingId := 8; LockRow.lockingTime := 1000;
            LockRow.period := 2; LockRow.amount := "5000";
            LockRow.released := true; LockRow.releasedAt := 1250 |};
     LockRow.getLockingBatch := LockRow.getLockingBatch lockProps;
     LockRow.durations := LockRow.durations lockProps;
     LockRow.currentLockingBatch := 10;
     LockRow.isLockingEnded := false |}.

(** A clock that reads second 1000 twice (the first render) and second
    1300 from then on, and one that stands at second 1200. *)
Definition clock (n : nat) : Z :=
  if (n <? 2)%nat then 1000000 else 1300000.

Definition boundaryClock (n : nat) : Z := 1200000.

Definition format (instant : Z) : string := pretty instant.
Definition formatAmount (amount : string) : string := amount.

(** The first render of the row and the render that follows it with the
    same properties. *)
Definition firstRender : React.Node * LockRow.RenderState :=
  LockRow.LockRow clock format formatAmount lockProps
    {| LockRow.hooks := LockRow.initialHooks; LockRow.readings := 0 |}.

Definition secondRender : React.Node * LockRow.RenderState :=
  LockRow.LockRow clock format formatAmount lockProps (snd firstRender).

End Demo.

(** * Properties *)

(** ** The [Reputation] entity *)

Section ReputationProperties.
Import Js Rx.

Variable StringToNumber : string -> float.

Lemma reputationOf_value (address : string) (this : Reputation.Reputation) :
  fst (Reputation.reputationOf StringToNumber address this) =
  pipe2
    (Reputation.getObservable (Reputation.context this)
       (Reputation.holdersQuery address (Reputation.address this)))
    (fun r => Ok (Reputation.data_reputationHolders r))
    (fun items =>
       balance ← Reputation.getprop (Reputation.firstItem items) "balance";
       if negb (Reputation.is_undefined balance)
       then balance' ← Reputation.getprop (Reputation.firstItem items) "balance";
            Ok (Number StringToNumber balance')
       else Ok 0%float).
Proof. reflexivity. Qed.

(** The two [map] stages of [reputationOf] on one response. *)
Lemma holders_stage (items : list JsObject) :
  (balance ← Reputation.getprop (Reputation.firstItem items) "balance";
   if negb (Reputation.is_undefined balance)
   then balance' ← Reputation.getprop (Reputation.firstItem items) "balance";
        Ok (Number StringToNumber balance')
   else Ok 0%float)
  = Ok (Reputation.spec_reputation StringToNumber (Reputation.mkResult items)).
Proof.
  unfold Reputation.spec_reputation, Reputation.firstItem; simpl.
  destruct items as [|item items]; simpl; [reflexivity|].
  unfold prop. destruct (item !! "balance") as [[| | | |]|]; reflexivity.
Qed.

Lemma map_map_ok {A B C : Type} (f : A -> B) (g : B -> result C) (o : Observable A) :
  Rx.map g (Rx.map (fun a => Ok (f a)) o) = Rx.map (fun a => g (f a)) o.
Proof.
  induction o as [|[a|e] o IH]; simpl; try reflexivity.
  destruct (g (f a)); [rewrite IH|]; reflexivity.
Qed.

Lemma map_ext {A B : Type} (f g : A -> result B) (o : Observable A) :
  (forall a, f a = g a) -> Rx.map f o = Rx.map g o.
Proof.
  intros Hfg. induction o as [|[a|e] o IH]; simpl; try reflexivity.
  rewrite Hfg. destruct (g a); [rewrite IH|]; reflexivity.
Qed.

(** A projection that never throws adds no error notification. *)
Lemma map_ok_errors {A B : Type} (f : A -> B) (o : Observable A) (e : Js.Error) :
  In (Error e) (Rx.map (fun a => Ok (f a)) o) -> In (Error e) o.
Proof.
  induction o as [|[a|e'] o IH]; simpl; intros H.
  - exact H.
  - destruct H as [H|H]; [discriminate|]. right. apply IH, H.
  - destruct H as [H|[]]. left. injection H as ->. reflexivity.
Qed.


(** With the context modelled from the specification, the state
    observable delivers the translation of each entity the service
    answers with, up to the first null entity, which it delivers as the
    error. *)
Lemma state_on_specArc (address : string) server entity :
  Reputation.state (Reputation.new address (Reputation.specArc server entity))
  = Rx.map (Reputation.itemMap address) (entity (Reputation.stateQuery address)).
Proof. reflexivity. Qed.

Lemma state_delivers_until_null (address : string) server entity
    (items : list JsObject) rest :
  entity (Reputation.stateQuery address)
  = (List.map (fun item => Next (Some item)) items ++ Next None :: rest)%list ->
  Reputation.state (Reputation.new address (Reputation.specArc server entity))
  = (List.map (fun item =>
                 Next {| Reputation.rs_address := prop item "address";
                         Reputation.rs_totalSupply := prop item "totalSupply" |})
       items
     ++ [Error (mkError ("Could not find a reputation contract with address "
                         ++ toLowerCase address))])%list.
Proof.
  intros Hfeed. rewrite state_on_specArc, Hfeed. clear Hfeed.
  induction items as [|item items IH]; simpl; [reflexivity|].
  rewrite IH. reflexivity.
Qed.


(** C8. For every response the query's observable delivers,
    [reputationOf] delivers 0 when the holder list is empty or its first
    item has no balance, and the number of the first item's balance
    otherwise; it introduces no error notification, in particular none
    for an empty holder list. *)
Theorem reputationOf_emits (address : string) (this : Reputation.Reputation) :
  fst (Reputation.reputationOf StringToNumber address this)
  = Rx.map (fun r => Ok (Reputation.spec_reputation StringToNumber r))
      (Reputation.getObservable (Reputation.context this)
         (Reputation.holdersQuery address (Reputation.address this))).
Proof.
  rewrite reputationOf_value. unfold pipe2.
  rewrite map_map_ok. apply map_ext.
  intros [items]. apply holders_stage.
Qed.

End ReputationProperties.

(** *** The entity on a concrete service *)

Section ReputationRuns.
Import Js Rx.

(** The state observable of the entity for address 0xABC: the entity,
    then the error for the lowercased address, and nothing after it. *)
Example state_of_demo_entity :
  Reputation.state Demo.reputation
  = [Next {| Reputation.rs_address := PStr "0xabc";
             Reputation.rs_totalSupply := PNum 1000 |};
     Error (mkError "Could not find a reputation contract with address 0xabc")].
Proof. reflexivity. Qed.

(** A holder with balance 42, then no holder, then a first holder without
    a balance: 42, 0, 0, and the instance is left as it was. *)
Example reputationOf_demo_holder :
  Reputation.reputationOf Demo.StringToNumber "0xbeef" Demo.reputation
  = ([Next 42%float; Next 0%float; Next 0%float], Demo.reputation).
Proof. vm_compute. reflexivity. Qed.

End ReputationRuns.

(** ** The documentation generator *)

Section GeneratorProperties.
Import Gen.

Variable exn : Type.
Variable stack : exn -> string.
Variable TypeError : string -> exn.
Variable ENOENT : string -> exn.
Variable solc_compile :
  gmap string string -> (string -> outcome exn string) ->
  outcome exn (list (string * ContractData)).
Variable JSON_parse : string -> outcome exn Json.
Variable path_resolve : string -> string -> string.
Variable contractTemplate :
  string -> option string -> Json -> Json -> option Json -> string ->
  outcome exn string.
Variable tableOfContentsTemplate :
  (string -> option string -> string) -> string -> list Contract ->
  string -> outcome exn string.

Abbreviation compile := (Gen.compile exn ENOENT solc_compile path_resolve).
Abbreviation render out :=
  (Gen.render exn TypeError ENOENT JSON_parse out destFn headerFn
     contractTemplate tableOfContentsTemplate).
Abbreviation body :=
  (Gen.body exn TypeError ENOENT solc_compile JSON_parse path_resolve
     contractTemplate tableOfContentsTemplate).
Abbreviation script :=
  (Gen.script exn stack TypeError ENOENT solc_compile JSON_parse path_resolve
     contractTemplate tableOfContentsTemplate).

(** *** Statements that never end the process *)

Lemma never_exits_bind {A B : Type} (m : M exn A) (k : A -> M exn B) :
  never_exits exn m -> (forall a, never_exits exn (k a)) ->
  never_exits exn (bind exn m k).
Proof.
  intros Hm Hk w w' code. unfold bind.
  destruct (m w) as [w1 [a|e|c]] eqn:E.
  - apply Hk.
  - discriminate.
  - exfalso. exact (Hm _ _ _ E).
Qed.

Lemma never_exits_ret {A : Type} (a : A) : never_exits exn (ret exn a).
Proof. intros w w' code. discriminate. Qed.

Lemma never_exits_lift {A : Type} (c : outcome exn A) : never_exits exn (lift exn c).
Proof. intros w w' code. destruct c; discriminate. Qed.

Lemma never_exits_readFileSync p : never_exits exn (readFileSync exn ENOENT p).
Proof. intros w w' code. unfold readFileSync. destruct (fs w !! p); discriminate. Qed.

Lemma never_exits_writeFileSync p c : never_exits exn (writeFileSync exn p c).
Proof. intros w w' code. discriminate. Qed.

Lemma never_exits_existsSync p : never_exits exn (existsSync exn p).
Proof. intros w w' code. discriminate. Qed.

Lemma never_exits_if {A : Type} (b : bool) (m1 m2 : M exn A) :
  never_exits exn m1 -> never_exits exn m2 ->
  never_exits exn (if b then m1 else m2).
Proof. destruct b; trivial. Qed.

Lemma never_exits_reduceM {A B : Type} (f : B -> A -> M exn B) (l : list A) :
  (forall b a, never_exits exn (f b a)) ->
  forall acc, never_exits exn (reduceM exn f l acc).
Proof.
  intros Hf. induction l as [|x l IH]; intros acc; simpl.
  - apply never_exits_ret.
  - apply never_exits_bind; [apply Hf | intros b; apply IH].
Qed.

Lemma never_exits_forEachM {A : Type} (f : A -> M exn unit) (l : list A) :
  (forall a, never_exits exn (f a)) -> never_exits exn (forEachM exn f l).
Proof.
  intros Hf. induction l as [|x l IH]; simpl.
  - apply never_exits_ret.
  - apply never_exits_bind; [apply Hf | intros _; apply IH].
Qed.

(** One step through a statement built from the primitives. *)
Ltac never_exits_step :=
  first
    [ apply never_exits_ret
    | apply never_exits_lift
    | apply never_exits_readFileSync
    | apply never_exits_writeFileSync
    | apply never_exits_existsSync
    | apply never_exits_if
    | apply never_exits_bind; [|intros ?]
    | apply never_exits_forEachM; intros ?
    | apply never_exits_reduceM; intros ? ? ].

Lemma never_exits_readHeader p : never_exits exn (readHeader exn ENOENT p).
Proof. unfold readHeader. repeat never_exits_step. Qed.

Lemma never_exits_compile files : never_exits exn (compile files).
Proof.
  unfold Gen.compile. repeat never_exits_step.
  intros w w' code. apply never_exits_lift.
Qed.

Lemma never_exits_renderContract c :
  never_exits exn
    (renderContract exn TypeError ENOENT JSON_parse destFn headerFn contractTemplate c).
Proof.
  unfold renderContract, mkdir_p.
  repeat first [apply never_exits_readHeader | never_exits_step].
Qed.

Lemma never_exits_render out : never_exits exn (render out).
Proof.
  unfold Gen.render, mkdir_p.
  repeat first [ apply never_exits_readHeader
               | apply never_exits_renderContract
               | never_exits_step ].
Qed.

(** *** The try block, stage by stage *)

Lemma body_stages (w : World) :
  body w =
  match compile (listed exn w) (compiling exn w) with
  | (w2, Normal output) =>
      match render output (rendering output w2) with
      | (w3, Normal _) => (w3, Exited 0)
      | (w3, Thrown e) => (w3, Thrown e)
      | (w3, Exited code) => (w3, Exited code)
      end
  | (w2, Thrown e) => (w2, Thrown e)
  | (w2, Exited code) => (w2, Exited code)
  end.
Proof.
  unfold Gen.body, bind at 1. simpl.
  unfold bind at 1. simpl.
  unfold bind at 1. simpl.
  unfold bind at 1.
  change {| fs := filter (λ kv : string * string, Text.under "./docs/ref" kv.1 = false) (fs w);
            stdout := stdout w ++ _ |}
    with (compiling exn w).
  change (merge_sort _ _) with (listed exn w).
  destruct (compile (listed exn w) (compiling exn w)) as [w2 [output|e|code]];
    try reflexivity.
Qed.

(** The catch block echoes two lines and exits with status 1. *)
Lemma handler_logged (e : exn) (w : World) :
  handler exn stack e w = (logged exn stack e w, Exited 1).
Proof.
  unfold handler, bind, echo, exit, logged; simpl.
  rewrite <- app_assoc. reflexivity.
Qed.

(** C1. The script exits with status 0 when compilation and rendering
    complete without a throw; when either throws, it echoes
    'An error occurred' and the stack of the thrown value and exits with
    status 1.  Neither stage ends the process itself. *)
Theorem script_exit_status (w : World) :
  match compile (listed exn w) (compiling exn w) with
  | (w2, Normal output) =>
      match render output (rendering output w2) with
      | (w3, Normal _) =>
          script w = (w3, Exited 0) /\ exitStatus exn (script w) = 0
      | (w3, Thrown e) =>
          script w = (logged exn stack e w3, Exited 1)
          /\ exitStatus exn (script w) = 1
      | (w3, Exited _) => False
      end
  | (w2, Thrown e) =>
      script w = (logged exn stack e w2, Exited 1)
      /\ exitStatus exn (script w) = 1
  | (w2, Exited _) => False
  end.
Proof.
  unfold Gen.script, try_catch. rewrite body_stages.
  destruct (compile (listed exn w) (compiling exn w)) as [w2 [output|e|code]] eqn:Hc.
  - destruct (render output (rendering output w2)) as [w3 [[]|e|code]] eqn:Hr.
    + split; reflexivity.
    + rewrite handler_logged. split; reflexivity.
    + exact (never_exits_render _ _ _ _ Hr).
  - rewrite handler_logged. split; reflexivity.
  - exact (never_exits_compile _ _ _ _ Hc).
Qed.

(** *** Deleting the output directory *)

Lemma cleared_idempotent (w : World) : cleared exn (cleared exn w) = cleared exn w.
Proof.
  unfold cleared, rm_rf; simpl. f_equal.
  apply map_filter_filter_l. intros i x _ H. exact H.
Qed.

Lemma cleared_empty (w : World) (p : string) :
  Text.under "./docs/ref" p = true -> fs (cleared exn w) !! p = None.
Proof.
  intros Hp. unfold cleared, rm_rf; simpl.
  apply map_lookup_filter_None. right. intros x _. simpl. rewrite Hp. discriminate.
Qed.

Lemma listed_cleared (w : World) : listed exn (cleared exn w) = listed exn w.
Proof. unfold listed. rewrite cleared_idempotent. reflexivity. Qed.

Lemma compiling_cleared (w : World) : compiling exn (cleared exn w) = compiling exn w.
Proof. unfold compiling. rewrite listed_cleared, cleared_idempotent. reflexivity. Qed.

Lemma body_cleared (w : World) : body (cleared exn w) = body w.
Proof. rewrite !body_stages, listed_cleared, compiling_cleared. reflexivity. Qed.

(** C6. The script deletes the whole of [./docs/ref] first, whatever it
    holds: a run is the run on the world without that directory, and after
    the deletion no path under it is left.  When a later statement throws,
    the script goes on from the world of the throw with the two echoes and
    the exit only: the files stay as the failure left them, nothing is
    retried and nothing is written back, and the status is 1. *)
Theorem script_deletes_then_never_restores (w : World) :
  script w = script (cleared exn w)
  /\ (forall p, Text.under "./docs/ref" p = true -> fs (cleared exn w) !! p = None)
  /\ fs (compiling exn w) = fs (cleared exn w)
  /\ match body w with
     | (w', Thrown e) =>
         script w = handler exn stack e w'
         /\ fs (fst (script w)) = fs w'
         /\ snd (script w) = Exited 1
     | (w', _) => script w = (w', Exited 0)
     end.
Proof.
  split; [|split; [|split]].
  - unfold Gen.script, try_catch. rewrite body_cleared. reflexivity.
  - apply cleared_empty.
  - reflexivity.
  - unfold Gen.script, try_catch. rewrite body_stages.
    destruct (compile (listed exn w) (compiling exn w))
      as [w2 [output|e|code]] eqn:Hc.
    + destruct (render output (rendering output w2)) as [w3 [[]|e|code]] eqn:Hr.
      * reflexivity.
      * rewrite handler_logged. repeat split.
      * destruct (never_exits_render _ _ _ _ Hr).
    + rewrite handler_logged. repeat split.
    + destruct (never_exits_compile _ _ _ _ Hc).
Qed.

(** *** The files the script lists *)

Lemma segments_match_length (ps ss : list string) :
  Text.segments_match ps ss = true -> length ps = length ss.
Proof.
  revert ss. induction ps as [|p ps IH]; intros [|s ss]; simpl;
    try discriminate; [reflexivity|].
  intros H. apply andb_true_iff in H as [_ H]. f_equal. apply IH, H.
Qed.

(** Every file the script lists matches the pattern, so it has exactly
    four segments: [.], [contracts], one directory and the file name.
    Files directly in [contracts/] or deeper are never listed. *)
Lemma listed_depth_one (w : World) (p : string) :
  In p (listed exn w) ->
  Text.glob "./contracts/*/*.sol" p = true
  /\ length (Text.split "/" p) = 4%nat.
Proof.
  unfold listed, ls; simpl. intros H.
  apply list_elem_of_In in H. rewrite merge_sort_Permutation in H.
  apply list_elem_of_In, List.filter_In in H as [_ H].
  split; [exact H|].
  unfold Text.glob in H. apply segments_match_length in H.
  symmetry. exact H.
Qed.

(** *** What [compile] returns *)

Lemma reduceM_sources (w : World) (files : list string) (acc : gmap string string) :
  reduceM exn
    (fun acc file =>
       bind exn (readFileSync exn ENOENT file)
         (fun contents => ret exn (<[file := contents]> acc)))
    files acc w
  = match sourcesOf (fs w) files acc with
    | inr sources => (w, Normal sources)
    | inl missing => (w, Thrown (ENOENT missing))
    end.
Proof.
  revert acc. induction files as [|file files IH]; intros acc; simpl.
  - reflexivity.
  - unfold bind at 1. unfold bind at 1, readFileSync.
    destruct (fs w !! file) as [contents|]; simpl; [apply IH | reflexivity].
Qed.

Lemma indexOf_lower (l : list string) (x : string) : -1 <= indexOf l x.
Proof.
  induction l as [|y l IH]; simpl; [lia|].
  destruct (String.eqb y x); [lia|].
  destruct (indexOf l x =? -1); lia.
Qed.

Lemma indexOf_In (l : list string) (x : string) :
  (indexOf l x =? -1) = false <-> In x l.
Proof.
  induction l as [|y l IH]; simpl.
  - split; [discriminate | intros []].
  - destruct (String.eqb_spec y x) as [->|Hne].
    + split; [left; reflexivity | reflexivity].
    + pose proof (indexOf_lower l x) as Hlo.
      destruct (indexOf l x =? -1) eqn:E.
      * split; [discriminate|]. intros [H|H]; [contradiction|].
        apply IH in H. discriminate.
      * split; [intros _; right; apply IH; reflexivity|]. intros _.
        apply Z.eqb_neq. apply Z.eqb_neq in E. lia.
Qed.

Lemma isInput_In (files : list string) (c : Contract) :
  isInput files c = true <-> In (file c) files.
Proof.
  unfold isInput. rewrite negb_true_iff. apply indexOf_In.
Qed.

Lemma split_separator (sep : ascii) (s : string) :
  Text.split sep (String sep s) = EmptyString :: Text.split sep s.
Proof. cbn [Text.split]. rewrite Ascii.eqb_refl. reflexivity. Qed.

Lemma split_other (sep c : ascii) (s : string) :
  Ascii.eqb c sep = false ->
  Text.split sep (String c s)
  = match Text.split sep s with
    | word :: words => String c word :: words
    | [] => [String c EmptyString]
    end.
Proof. intros H. cbn [Text.split]. rewrite H. reflexivity. Qed.

Lemma split_colon_free (s : string) :
  Text.mentions ":" s = false -> Text.split ":" s = [s].
Proof.
  induction s as [|c s IH]; [reflexivity|].
  cbn [Text.mentions]. intros H. apply orb_false_iff in H as [Hc Hs].
  rewrite (split_other _ _ _ Hc), (IH Hs). reflexivity.
Qed.

Lemma split_key (f n : string) :
  Text.mentions ":" f = false -> Text.mentions ":" n = false ->
  Text.split ":" (f ++ ":" ++ n) = [f; n].
Proof.
  intros Hf Hn. induction f as [|c f IH].
  - change (EmptyString ++ ":" ++ n) with (String ":" n).
    rewrite split_separator, (split_colon_free n Hn). reflexivity.
  - cbn [Text.mentions] in Hf. apply orb_false_iff in Hf as [Hc Hf].
    change (String c f ++ ":" ++ n) with (String c (f ++ ":" ++ n)).
    rewrite (split_other _ _ _ Hc), (IH Hf). reflexivity.
Qed.

(** C9. For every list of input files, [compile] returns, when the
    sources can be read and the compiler returns, exactly the entries of
    the compiler's output whose file is one of the input files, in output
    order (it throws otherwise); an entry is returned if and only if its
    file is an input file and it comes from an output key whose parts at
    ':' give its file (part 0) and its contract name (part 1); for a key
    'file:name' with no other colon these are the file and the name. *)
Theorem compile_keeps_input_contracts (files : list string) (w : World) :
  compile files w
  = match sourcesOf (fs w) files ∅ with
    | inl missing => (w, Thrown (ENOENT missing))
    | inr sources =>
        match solc_compile sources (importCallback exn ENOENT path_resolve w) with
        | Returned output =>
            (w, Normal (List.filter (isInput files) (List.map entryOf output)))
        | Raised e => (w, Thrown e)
        end
    end
  /\ (forall output c,
        In c (List.filter (isInput files) (List.map entryOf output)) <->
        In (file c) files
        /\ exists key d,
             In (key, d) output
             /\ file c = List.hd EmptyString (Text.split ":" key)
             /\ contractName c = Text.split ":" key !! 1%nat
             /\ data c = d)
  /\ (forall f n d,
        Text.mentions ":" f = false -> Text.mentions ":" n = false ->
        entryOf (f ++ ":" ++ n, d)
        = {| file := f; contractName := Some n; data := d |}).
Proof.
  split; [|split].
  - unfold Gen.compile. unfold bind at 1. rewrite reduceM_sources.
    destruct (sourcesOf (fs w) files ∅) as [missing|sources]; [reflexivity|].
    unfold bind at 1, lift.
    destruct (solc_compile sources _); reflexivity.
  - intros output c. rewrite List.filter_In, isInput_In, List.in_map_iff. split.
    + intros [[[key d] [<- Hin]] Hc]. split; [exact Hc|].
      exists key, d. repeat split. exact Hin.
    + intros [Hc (key & d & Hin & Hf & Hn & Hd)]. split; [|exact Hc].
      exists (key, d). split; [|exact Hin].
      destruct c as [cf cn cd]; simpl in *. unfold entryOf; simpl.
      rewrite Hf, Hn, Hd. reflexivity.
  - intros f n d Hf Hn. unfold entryOf; simpl.
    rewrite (split_key f n Hf Hn). reflexivity.
Qed.

End GeneratorProperties.

(** *** The generator on the concrete repository *)

Section GeneratorRuns.
Import Gen.

(** C5, evaluated.  In the repository with [./contracts/Top.sol],
    [./contracts/a/Ok.sol] and [./contracts/a/b/Deep.sol], the script
    lists and compiles [./contracts/a/Ok.sol] only, and the pages it
    writes are [./docs/ref/README.md] and [./docs/ref/a/Ok.md]: the
    contract directly in [contracts/] and the one two directories below
    it are not consumed. *)
Theorem only_depth_one_sources_consumed :
  listed string (Demo.world Demo.repository) = ["./contracts/a/Ok.sol"]
  /\ Text.glob "./contracts/*/*.sol" "./contracts/Top.sol" = false
  /\ Text.glob "./contracts/*/*.sol" "./contracts/a/b/Deep.sol" = false
  /\ Demo.listing (fst (Demo.script (Demo.world Demo.repository)))
     = [("./contracts/Top.sol", "[]");
        ("./contracts/a/Ok.sol", "[]");
        ("./contracts/a/b/Deep.sol", "[]");
        ("./docs/ref/README.md", "# Contents");
        ("./docs/ref/a/Ok.md", "# Ok");
        ("/repo/node_modules/zeppelin/Ownable.sol", "[]")]
  /\ snd (Demo.script (Demo.world Demo.repository)) = Exited 0.
Proof. vm_compute. repeat split. Qed.

(** A run that fails while rendering the second contract: the stale page
    is gone, the table of contents and the first page are written, the
    second page is not, and the status is 1. *)
Example failed_run_leaves_partial_output :
  Demo.listing (fst (Demo.script (Demo.world Demo.brokenRepository)))
  = [("./contracts/Top.sol", "[]");
     ("./contracts/a/Ok.sol", "[]");
     ("./contracts/a/Zed.sol", "oops");
     ("./contracts/a/b/Deep.sol", "[]");
     ("./docs/ref/README.md", "# Contents");
     ("./docs/ref/a/Ok.md", "# Ok");
     ("/repo/node_modules/zeppelin/Ownable.sol", "[]")]
  /\ stdout (fst (Demo.script (Demo.world Demo.brokenRepository)))
     = ["Compiling 2 files..."; "Rendering 2 contracts...";
        "An error occurred"; "SyntaxError: Unexpected token in JSON: oops"]
  /\ exitStatus string (Demo.script (Demo.world Demo.brokenRepository)) = 1.
Proof. vm_compute. repeat split. Qed.

Lemma script_deletes_then_never_restores_witness :
  fs (cleared string (Demo.world Demo.repository)) !! "./docs/ref/old.md" = None.
Proof.
  exact (proj1 (proj2
           (script_deletes_then_never_restores string Demo.stack Demo.TypeError
              Demo.ENOENT Demo.solc_compile Demo.JSON_parse Demo.path_resolve
              Demo.contractTemplate Demo.tableOfContentsTemplate
              (Demo.world Demo.repository)))
           "./docs/ref/old.md" eq_refl).
Defined.

Lemma compile_keeps_input_contracts_witness :
  entryOf ("./contracts/a/Ok.sol" ++ ":" ++ "Ok", mkData "[]" EmptyString None)
  = {| file := "./contracts/a/Ok.sol"; contractName := Some "Ok";
       data := mkData "[]" EmptyString None |}.
Proof.
  exact (proj2 (proj2
           (compile_keeps_input_contracts string Demo.ENOENT Demo.solc_compile
              Demo.path_resolve ["./contracts/a/Ok.sol"]
              (Demo.world Demo.repository)))
           "./contracts/a/Ok.sol" "Ok" (mkData "[]" EmptyString None)
           eq_refl eq_refl).
Defined.

(** [compile] on the concrete repository: the dependency the compiler
    reports is dropped. *)
Example compile_drops_dependency :
  Demo.solc_compile {["./contracts/a/Ok.sol" := "[]"]}
    (importCallback string Demo.ENOENT Demo.path_resolve (Demo.world Demo.repository))
  = Returned
      [("zeppelin/Ownable.sol:Ownable", mkData "[]" EmptyString None);
       ("./contracts/a/Ok.sol:Ok", mkData "[]" EmptyString None)]
  /\ Demo.compile ["./contracts/a/Ok.sol"] (Demo.world Demo.repository)
     = (Demo.world Demo.repository,
        Normal [{| file := "./contracts/a/Ok.sol"; contractName := Some "Ok";
                   data := mkData "[]" EmptyString None |}]).
Proof. vm_compute. repeat split. Qed.

End GeneratorRuns.

(** ** [DaoMembersContainer] *)

Section MembersProperties.
Import Js Rx React DaoMembersContainer.

(** Mounting what a component function returns. *)
Lemma mount_undefined_items {A : Type} (l : list A) :
  mount (NArray (List.map (fun _ => NUndefined) l)) = Ok [].
Proof.
  induction l as [|x l IH]; [reflexivity|].
  simpl in *. rewrite IH. reflexivity.
Qed.

(** Whatever the members are, and whatever their state observables
    deliver, the container renders an empty [div]: the elements built in
    the [map] callback are dropped. *)
Lemma render_mounts_empty (props : IProps) :
  mount (render props)
  = Ok [DHost "div" [("className", css "membersContainer")] []].
Proof.
  unfold render.
  pose proof (mount_undefined_items (members props)) as H.
  simpl in *. rewrite H. reflexivity.
Qed.

(** The error of the DAO members observable is rendered as its message by
    the default export. *)
Lemma default_renders_members_error DAO_members store (daoAddress : string) e :
  Text.nonempty daoAddress = true ->
  error (observe (DAO_members daoAddress)) = Some e ->
  default DAO_members store (Some daoAddress) ≫= mount
  = Ok [DHost "div" [] [DText (message e)]].
Proof.
  intros Hne He. unfold default. rewrite Hne. simpl. rewrite He. reflexivity.
Qed.

(** C2, evaluated.  For a member whose state observable delivers the
    error 'Could not find member', the container renders an empty [div],
    directly and through the default export, although the render function
    written for that member's [Subscribe] turns the error into a [div]
    with the message: the message is not rendered. *)
Theorem member_state_error_not_rendered :
  mount (render {| dao := None; members := [Demo.failingMember]; profiles := ∅ |})
  = Ok [DHost "div" [("className", "membersContainer")] []]
  /\ default (fun _ => [Next [Demo.failingMember]]) Demo.store (Some "0xda0") ≫= mount
     = Ok [DHost "div" [("className", "membersContainer")] []]
  /\ mount (NSubscribe IMemberState (state Demo.failingMember) (memberView None ∅))
     = Ok [DHost "div" [] [DText "Could not find member"]].
Proof. repeat split. Qed.

(** C3, evaluated.  For a members response with the member 0xbeef of
    reputation 5, the container renders an empty [div], directly and
    through the default export, although the render function written for
    that member's [Subscribe] produces the entry with the address and the
    reputation: no entry is rendered. *)
Theorem member_entries_not_rendered :
  mount (render {| dao := None; members := [Demo.loadedMember]; profiles := ∅ |})
  = Ok [DHost "div" [("className", "membersContainer")] []]
  /\ default (fun _ => [Next [Demo.loadedMember]]) Demo.store (Some "0xda0") ≫= mount
     = Ok [DHost "div" [("className", "membersContainer")] []]
  /\ mount (NSubscribe IMemberState (state Demo.loadedMember) (memberView None ∅))
     = Ok [DHost "div" [("className", "member clearfix"); ("key", "member_0xbeef")]
             [DComponent "AccountImage"
                [("accountAddress", PropStr "0xbeef");
                 ("className", PropStr "membersPage")];
              DHost "div" [("className", "memberAddress")]
                [DText EmptyString; DHost "div" [] [DText "0xbeef"]];
              DHost "div" []
                [DText "Reputation: "; DHost "span" [] [DNum 5]]]].
Proof. repeat split. Qed.

End MembersProperties.

(** ** [LockRow] *)

Section LockRowProperties.
Import React LockRow.

Variable clock : nat -> Z.
Variable format : Z -> string.
Variable formatAmount : string -> string.

Abbreviation renderRow := (LockRow.LockRow clock format formatAmount).

(** The instant the first memo computes is the releasable time. *)
Lemma releasable_computed (props : IProps) :
  add_seconds (unix (lockingTime (obj (lockData props))))
    (period (obj (lockData props)) * batchTime (schemeParams props))
  = releasableTime props.
Proof. unfold add_seconds, unix, releasableTime. lia. Qed.

Lemma shown_releaseButton (h : Hooks) : shown (releaseButton h) = true.
Proof. reflexivity. Qed.

Lemma shown_extendControl (props : IProps) (h : Hooks) :
  shown (extendControl props h) = true.
Proof. reflexivity. Qed.

(** One render, for any hooks: which of the two actions is rendered. *)
Lemma LockRow_actions (props : IProps) (st : RenderState) :
  let lock := obj (lockData props) in
  let dep := oid (lockData props) in
  let tree := fst (renderRow props st) in
  let releasable :=
    default (releasableTime props) (memoised (releasableMemo (hooks st)) dep) in
  let release :=
    default ((releasable <=? clock (readings st)) && negb (released lock))
      (memoised (releaseMemo (hooks st)) dep) in
  let now :=
    clock (match memoised (releaseMemo (hooks st)) dep with
           | Some _ => readings st
           | None => S (readings st)
           end) in
  showsRelease tree = negb (released lock) && release
  /\ showsExtend tree = negb (isLockingEnded props) && (now <=? releasable).
Proof.
  destruct st as [h n]. destruct props as [params [dep lock] batch ds cur ended].
  destruct h as [ir ie ld rm lm]. simpl.
  unfold LockRow.LockRow, bind, useMemo, memoised, showsRelease, showsExtend; simpl.
  pose proof (releasable_computed
                {| schemeParams := params; lockData := mkRef dep lock;
                   getLockingBatch := batch; durations := ds;
                   currentLockingBatch := cur; isLockingEnded := ended |}) as HR.
  simpl in HR.
  destruct rm as [[d1 v1]|]; destruct lm as [[d2 v2]|]; simpl;
    repeat match goal with
           | |- context [(?a =? dep)%nat] => destruct (a =? dep)%nat; simpl
           end;
    rewrite ?HR;
    destruct (released lock); destruct ended; simpl;
    repeat match goal with
           | |- context [if ?b then _ else _] => destruct b; simpl
           end; split; reflexivity.
Qed.

(** The memo cells after a render hold, for the lock object rendered,
    the values the render used. *)
Lemma LockRow_memoises (props : IProps) (st : RenderState) :
  let lock := obj (lockData props) in
  let dep := oid (lockData props) in
  let st' := snd (renderRow props st) in
  let releasable :=
    default (releasableTime props) (memoised (releasableMemo (hooks st)) dep) in
  let release :=
    default ((releasable <=? clock (readings st)) && negb (released lock))
      (memoised (releaseMemo (hooks st)) dep) in
  memoised (releasableMemo (hooks st')) dep = Some releasable
  /\ memoised (releaseMemo (hooks st')) dep = Some release.
Proof.
  destruct st as [h n]. destruct props as [params [dep lock] batch ds cur ended].
  destruct h as [ir ie ld rm lm]. simpl.
  unfold LockRow.LockRow, bind, useMemo, memoised; simpl.
  pose proof (releasable_computed
                {| schemeParams := params; lockData := mkRef dep lock;
                   getLockingBatch := batch; durations := ds;
                   currentLockingBatch := cur; isLockingEnded := ended |}) as HR.
  simpl in HR.
  destruct rm as [[d1 v1]|]; destruct lm as [[d2 v2]|]; simpl;
    repeat match goal with
           | |- context [(?a =? dep)%nat] => destruct (a =? dep)%nat eqn:?; simpl
           end;
    rewrite ?HR; destruct ended; simpl;
    rewrite ?Nat.eqb_refl;
    repeat match goal with
           | H : (?a =? dep)%nat = true |- _ => rewrite H; clear H
           end;
    split; reflexivity.
Qed.


End LockRowProperties.

Section LockRowRuns.
Import React LockRow.



(** At the boundary instant a first render shows both actions. *)
Example both_actions_at_boundary :
  let tree :=
    fst (LockRow.LockRow Demo.boundaryClock Demo.format Demo.formatAmount
           Demo.lockProps {| hooks := initialHooks; readings := 0 |}) in
  showsRelease tree = true /\ showsExtend tree = true.
Proof. vm_compute. split; reflexivity. Qed.

End LockRowRuns.

(** * Further properties *)

(** ** Texts, patterns and paths *)

Section TextProperties.
Import Text.

Lemma string_app_cons (x : ascii) (a b : string) :
  String x a ++ b = String x (a ++ b).
Proof. reflexivity. Qed.

Lemma string_app_nil (b : string) : EmptyString ++ b = b.
Proof. reflexivity. Qed.

Lemma string_app_assoc (a b c : string) : (a ++ b) ++ c = a ++ b ++ c.
Proof.
  induction a as [|x a IH]; [reflexivity|].
  rewrite !string_app_cons, IH. reflexivity.
Qed.

Lemma string_app_empty (a : string) : a ++ EmptyString = a.
Proof.
  induction a as [|x a IH]; [reflexivity|].
  rewrite string_app_cons, IH. reflexivity.
Qed.

Lemma string_length_app (a b : string) :
  String.length (a ++ b) = (String.length a + String.length b)%nat.
Proof.
  induction a as [|x a IH]; [reflexivity|].
  rewrite string_app_cons. simpl. rewrite IH. reflexivity.
Qed.

Lemma substring_all (s : string) : substring 0 (String.length s) s = s.
Proof. induction s as [|c s IH]; simpl; [reflexivity|]. rewrite IH. reflexivity. Qed.

Lemma substring_skip (p r : string) (n : nat) :
  substring (String.length p) n (p ++ r) = substring 0 n r.
Proof.
  induction p as [|c p IH]; [reflexivity|].
  rewrite string_app_cons. simpl. apply IH.
Qed.

Lemma prefix_nil (s : string) : String.prefix EmptyString s = true.
Proof. destruct s; reflexivity. Qed.

Lemma prefix_app (p r : string) : String.prefix p (p ++ r) = true.
Proof.
  induction p as [|c p IH]; [apply prefix_nil|].
  rewrite string_app_cons. simpl.
  destruct (ascii_dec c c); [exact IH | contradiction].
Qed.

(** A text with a given prefix is that prefix followed by the rest. *)
Lemma prefix_split (p s : string) :
  String.prefix p s = true ->
  s = p ++ substring (String.length p) (String.length s - String.length p) s.
Proof.
  revert s. induction p as [|c p IH]; intros s H.
  - rewrite string_app_nil. simpl. rewrite Nat.sub_0_r, substring_all. reflexivity.
  - destruct s as [|d s]; simpl in H; [discriminate|].
    destruct (ascii_dec c d) as [->|]; [|discriminate].
    rewrite string_app_cons. simpl. f_equal. apply IH, H.
Qed.

Lemma find_unfold (pat s : string) :
  find pat s =
  if String.prefix pat s
  then Some (EmptyString,
             substring (String.length pat) (String.length s - String.length pat) s)
  else match s with
       | EmptyString => None
       | String c s' =>
           match find pat s' with
           | Some (before, after) => Some (String c before, after)
           | None => None
           end
       end.
Proof. destruct s; reflexivity. Qed.

(** What [find] returns splits the text around an occurrence. *)
Lemma find_splits (pat s before after : string) :
  find pat s = Some (before, after) -> s = before ++ pat ++ after.
Proof.
  revert before after. induction s as [|c s IH]; intros before after;
    rewrite find_unfold; destruct (String.prefix pat _) eqn:Hp.
  - intros [= <- <-]. apply prefix_split, Hp.
  - discriminate.
  - intros [= <- <-]. apply prefix_split, Hp.
  - destruct (find pat s) as [[b a]|]; [|discriminate].
    intros [= <- <-]. rewrite string_app_cons. f_equal. apply IH. reflexivity.
Qed.

Lemma find_at_start (pat rest : string) :
  find pat (pat ++ rest) = Some (EmptyString, rest).
Proof.
  rewrite find_unfold, prefix_app, substring_skip, string_length_app.
  replace (String.length pat + String.length rest - String.length pat)%nat
    with (String.length rest) by lia.
  rewrite substring_all. reflexivity.
Qed.

(** A text without the separator that starts a text with a separator
    lies before the separator. *)
Lemma prefix_before_separator (c : ascii) (f a rest : string) :
  mentions c f = false ->
  String.prefix f (a ++ String c rest) = true -> String.prefix f a = true.
Proof.
  revert a. induction f as [|x f IH]; intros a Hf H; [apply prefix_nil|].
  simpl in Hf. apply orb_false_iff in Hf as [Hx Hf].
  destruct a as [|y a].
  - rewrite string_app_nil in H. simpl in H.
    destruct (ascii_dec x c) as [->|]; [|discriminate].
    rewrite Ascii.eqb_refl in Hx. discriminate.
  - rewrite string_app_cons in H. simpl in *.
    destruct (ascii_dec x y); [|discriminate]. apply IH; assumption.
Qed.

Lemma prefix_mentions (c : ascii) (f a : string) :
  String.prefix f a = true -> mentions c f = true -> mentions c a = true.
Proof.
  revert a. induction f as [|x f IH]; intros a H Hc; [discriminate|].
  destruct a as [|y a]; simpl in *; [discriminate|].
  destruct (ascii_dec x y) as [->|]; [|discriminate].
  apply orb_true_iff in Hc as [Hc|Hc]; [rewrite Hc; reflexivity|].
  rewrite (IH a H Hc). apply orb_true_r.
Qed.

(** An occurrence of [f] cannot start in a part [a] that lacks one of
    its characters and is closed by a separator [f] does not contain. *)
Lemma find_after_clean_part (sep c : ascii) (f a rest : string) :
  mentions sep f = false -> mentions c f = true -> mentions c a = false ->
  find f (a ++ String sep rest)
  = match find f rest with
    | Some (before, after) => Some (a ++ String sep before, after)
    | None => None
    end.
Proof.
  intros Hsep Hc. induction a as [|y a IH]; intros Ha.
  - rewrite !string_app_nil. rewrite find_unfold.
    destruct (String.prefix f (String sep rest)) eqn:Hp.
    + apply (prefix_before_separator sep f EmptyString rest Hsep) in Hp.
      apply (prefix_mentions c) in Hp; [discriminate|exact Hc].
    + reflexivity.
  - simpl in Ha. apply orb_false_iff in Ha as [Hy Ha].
    rewrite !string_app_cons. rewrite find_unfold.
    destruct (String.prefix f (String y (a ++ String sep rest))) eqn:Hp.
    + apply (prefix_before_separator sep f (String y a) rest Hsep) in Hp.
      apply (prefix_mentions c) in Hp; [|exact Hc].
      simpl in Hp. rewrite Hy, Ha in Hp. discriminate.
    + rewrite (IH Ha). destruct (find f rest) as [[b r]|]; reflexivity.
Qed.

Lemma mentions_app (c : ascii) (a b : string) :
  mentions c (a ++ b) = mentions c a || mentions c b.
Proof.
  induction a as [|x a IH]; [reflexivity|].
  rewrite string_app_cons. simpl. rewrite IH. apply orb_assoc.
Qed.

Lemma find_none_without_char (c : ascii) (f a : string) :
  mentions c f = true -> mentions c a = false -> find f a = None.
Proof.
  intros Hf Ha. destruct (find f a) as [[b r]|] eqn:E; [|reflexivity].
  apply find_splits in E. subst a.
  rewrite !mentions_app, Hf, orb_true_r in Ha. discriminate.
Qed.

(** An occurrence of [f] cannot start in a part [a] in which [f] does
    not occur and which is closed by a separator [f] does not contain. *)
Lemma find_after_part (sep : ascii) (f a rest : string) :
  mentions sep f = false -> find f a = None ->
  find f (a ++ String sep rest)
  = match find f rest with
    | Some (before, after) => Some (a ++ String sep before, after)
    | None => None
    end.
Proof.
  intros Hsep. induction a as [|y a IH]; intros Ha;
    rewrite find_unfold in Ha;
    destruct (String.prefix f _) eqn:Hpa in Ha; try discriminate.
  - rewrite !string_app_nil. rewrite find_unfold.
    destruct (String.prefix f (String sep rest)) eqn:Hp; [|reflexivity].
    apply (prefix_before_separator sep f EmptyString rest Hsep) in Hp.
    rewrite Hp in Hpa. discriminate.
  - destruct (find f a) as [[b r]|] eqn:E; [discriminate|].
    rewrite !string_app_cons. rewrite find_unfold.
    destruct (String.prefix f (String y (a ++ String sep rest))) eqn:Hp.
    + apply (prefix_before_separator sep f (String y a) rest Hsep) in Hp.
      rewrite Hp in Hpa. discriminate.
    + rewrite (IH eq_refl). destruct (find f rest) as [[b r]|]; reflexivity.
Qed.

Lemma find_self (f : string) : find f f = Some (EmptyString, EmptyString).
Proof.
  pose proof (find_at_start f EmptyString) as H.
  rewrite string_app_empty in H. exact H.
Qed.

Lemma substitution_other (m b a r : string) (c : ascii) :
  Ascii.eqb c "$" = false ->
  substitution m b a (String c r) = String c (substitution m b a r).
Proof.
  destruct c as [[] [] [] [] [] [] [] []]; try discriminate; reflexivity.
Qed.

(** A replacement text without a dollar stands for itself. *)
Lemma substitution_plain (m b a r : string) :
  mentions "$" r = false -> substitution m b a r = r.
Proof.
  induction r as [|c r IH]; [reflexivity|].
  intros H. cbn [mentions] in H. apply orb_false_iff in H as [Hc Hr].
  rewrite (substitution_other _ _ _ _ _ Hc), (IH Hr). reflexivity.
Qed.


Lemma split_clean (sep : ascii) (s : string) :
  mentions sep s = false -> split sep s = [s].
Proof.
  induction s as [|c s IH]; [reflexivity|].
  cbn [mentions]. intros H. apply orb_false_iff in H as [Hc Hs].
  cbn [split]. rewrite Hc, (IH Hs). reflexivity.
Qed.

Lemma split_app_clean (sep : ascii) (a b : string) :
  mentions sep a = false ->
  split sep (a ++ String sep b) = a :: split sep b.
Proof.
  induction a as [|c a IH]; intros H.
  - rewrite string_app_nil. cbn [split]. rewrite Ascii.eqb_refl. reflexivity.
  - cbn [mentions] in H. apply orb_false_iff in H as [Hc Ha].
    rewrite string_app_cons. cbn [split]. rewrite Hc, (IH Ha). reflexivity.
Qed.


Lemma wild_star (p s : string) :
  wild (String "*" p) s
  = wild p s || match s with
                | EmptyString => false
                | String _ s' => wild (String "*" p) s'
                end.
Proof. destruct s; reflexivity. Qed.

(** A pattern without a star matches itself only. *)
Lemma wild_literal (p s : string) :
  mentions "*" p = false -> wild p s = true -> s = p.
Proof.
  revert s. induction p as [|c p IH]; intros s Hp H.
  - destruct s; [reflexivity|discriminate].
  - cbn [mentions] in Hp. apply orb_false_iff in Hp as [Hc Hp].
    cbn [wild] in H. rewrite Hc in H.
    destruct s as [|d s]; [discriminate|].
    apply andb_true_iff in H as [Hcd H].
    apply Ascii.eqb_eq in Hcd as ->. f_equal. apply IH; assumption.
Qed.

(** A text matching a star followed by a literal holds the literal's
    characters. *)
Lemma wild_star_mentions (c : ascii) (p s : string) :
  mentions "*" p = false -> mentions c p = true ->
  wild (String "*" p) s = true -> mentions c s = true.
Proof.
  intros Hp Hc. induction s as [|d s IH]; rewrite wild_star; intros H.
  - rewrite orb_false_r in H. apply (wild_literal _ _ Hp) in H. subst p.
    discriminate.
  - apply orb_true_iff in H as [H|H].
    + apply (wild_literal _ _ Hp) in H. rewrite H. exact Hc.
    + cbn [mentions]. rewrite (IH H). apply orb_true_r.
Qed.



Lemma nonempty_mentions (c : ascii) (s : string) :
  mentions c s = true -> nonempty s = true.
Proof. destruct s; [discriminate|reflexivity]. Qed.

Lemma basename_depth_one (d f : string) :
  mentions "/" d = false -> mentions "/" f = false -> nonempty f = true ->
  basename ("./contracts/" ++ d ++ "/" ++ f) = f.
Proof.
  intros Hd Hf Hne. unfold basename.
  change ("./contracts/" ++ d ++ "/" ++ f)
    with ("." ++ String "/" ("contracts" ++ String "/" (d ++ String "/" f))).
  rewrite !split_app_clean, (split_clean _ _ Hf) by (reflexivity || assumption).
  simpl. destruct (nonempty d); rewrite Hne; reflexivity.
Qed.


End TextProperties.

(** ** Where the pages go *)

Section DestinationProperties.
Import Text Gen.

Lemma first_replace (rest : string) :
  replace ("./contracts" ++ rest) "./contracts" "./docs/ref" = "./docs/ref" ++ rest.
Proof. unfold replace. rewrite find_at_start. reflexivity. Qed.

Lemma sol_mentions_l (f : string) : wild "*.sol" f = true -> mentions "l" f = true.
Proof. apply wild_star_mentions; reflexivity. Qed.

Lemma destFn_depth_one_unfold (d f : string) (name : option string) :
  mentions "/" d = false -> mentions "/" f = false -> wild "*.sol" f = true ->
  destFn ("./contracts/" ++ d ++ "/" ++ f) name
  = replace ("./docs/ref" ++ String "/" (d ++ String "/" f)) f
      (interpolate name ++ ".md").
Proof.
  intros Hd Hf Hw. unfold destFn.
  rewrite (basename_depth_one d f Hd Hf
             (nonempty_mentions "l" f (sol_mentions_l f Hw))).
  change ("./contracts/" ++ d ++ "/" ++ f)
    with ("./contracts" ++ String "/" (d ++ String "/" f)).
  rewrite first_replace. reflexivity.
Qed.


(** The page of a contract [n] compiled from [./contracts/d/f] is
    [./docs/ref/d/n.md], provided the file name matches [*.sol] and does
    not occur in the directory name and the contract name holds no
    dollar: the destination depends on the directory and the contract
    name only. *)
Theorem destFn_depth_one (d f n : string) :
  mentions "/" d = false -> mentions "/" f = false -> wild "*.sol" f = true ->
  find f d = None -> mentions "$" n = false ->
  destFn ("./contracts/" ++ d ++ "/" ++ f) (Some n)
  = "./docs/ref/" ++ d ++ "/" ++ n ++ ".md".
Proof.
  intros Hd Hf Hw Hfd Hn.
  rewrite (destFn_depth_one_unfold d f (Some n) Hd Hf Hw).
  unfold replace.
  rewrite (find_after_part "/" f "./docs/ref" _ Hf
             (find_none_without_char "l" f "./docs/ref" (sol_mentions_l f Hw) eq_refl)).
  rewrite (find_after_part "/" f d f Hf Hfd), find_self.
  rewrite substitution_plain.
  2:{ simpl. rewrite mentions_app, Hn. reflexivity. }
  simpl. rewrite !string_app_empty, !string_app_assoc.
  change ("./docs/ref/" ++ d ++ "/" ++ n ++ ".md")
    with ("./docs/ref" ++ String "/" (d ++ "/" ++ n ++ ".md")).
  f_equal. rewrite (string_app_cons "/" (d ++ "/")), string_app_assoc. reflexivity.
Qed.

Lemma first_replace_headers (rest : string) :
  replace ("./contracts" ++ rest) "./contracts" "./docs/headers"
  = "./docs/headers" ++ rest.
Proof. unfold replace. rewrite find_at_start. reflexivity. Qed.

(** The header looked up for a contract [n] compiled from
    [./contracts/d/f] is [./docs/headers/d/n.md], under the same
    provisos as for its page. *)
Theorem headerFn_depth_one (d f n : string) :
  mentions "/" d = false -> mentions "/" f = false -> wild "*.sol" f = true ->
  find f d = None -> mentions "$" n = false ->
  headerFn ("./contracts/" ++ d ++ "/" ++ f) (Some n)
  = "./docs/headers/" ++ d ++ "/" ++ n ++ ".md".
Proof.
  intros Hd Hf Hw Hfd Hn. unfold headerFn.
  rewrite (basename_depth_one d f Hd Hf
             (nonempty_mentions "l" f (sol_mentions_l f Hw))).
  change ("./contracts/" ++ d ++ "/" ++ f)
    with ("./contracts" ++ String "/" (d ++ String "/" f)).
  rewrite first_replace_headers.
  change (String.eqb ("./contracts" ++ String "/" (d ++ String "/" f)) "toc")
    with false.
  unfold replace.
  rewrite (find_after_part "/" f "./docs/headers" _ Hf
             (find_none_without_char "l" f "./docs/headers"
                (sol_mentions_l f Hw) eq_refl)).
  rewrite (find_after_part "/" f d f Hf Hfd), find_self.
  rewrite substitution_plain.
  2:{ simpl. rewrite mentions_app, Hn. reflexivity. }
  simpl. rewrite !string_app_empty, !string_app_assoc.
  change ("./docs/headers/" ++ d ++ "/" ++ n ++ ".md")
    with ("./docs/headers" ++ String "/" (d ++ "/" ++ n ++ ".md")).
  f_equal. rewrite (string_app_cons "/" (d ++ "/")), string_app_assoc. reflexivity.
Qed.

End DestinationProperties.

(** ** What the generator writes *)

Section GeneratorFrame.
Import Text Gen.

Variable exn : Type.
Variable stack : exn -> string.
Variable TypeError : string -> exn.
Variable ENOENT : string -> exn.
Variable solc_compile :
  gmap string string -> (string -> outcome exn string) ->
  outcome exn (list (string * ContractData)).
Variable JSON_parse : string -> outcome exn Json.
Variable path_resolve : string -> string -> string.
Variable contractTemplate :
  string -> option string -> Json -> Json -> option Json -> string ->
  outcome exn string.
Variable tableOfContentsTemplate :
  (string -> option string -> string) -> string -> list Contract ->
  string -> outcome exn string.

Abbreviation compile := (Gen.compile exn ENOENT solc_compile path_resolve).
Abbreviation render out :=
  (Gen.render exn TypeError ENOENT JSON_parse out destFn headerFn
     contractTemplate tableOfContentsTemplate).
Abbreviation script :=
  (Gen.script exn stack TypeError ENOENT solc_compile JSON_parse path_resolve
     contractTemplate tableOfContentsTemplate).

(** *** Statements that write within given paths *)














(** *** The script as a whole *)








(** *** Statements that keep the files there are *)

Lemma bind_normal {A B : Type} (m : M exn A) (k : A -> M exn B) w w' b :
  bind exn m k w = (w', Normal b) ->
  exists a w1, m w = (w1, Normal a) /\ k a w1 = (w', Normal b).
Proof.
  unfold bind. destruct (m w) as [w1 [a|e|code]]; try discriminate.
  intros H. exists a, w1. split; [reflexivity|exact H].
Qed.

Lemma keeps_files_bind {A B : Type} (m : M exn A) (k : A -> M exn B) :
  keeps_files exn m -> (forall a, keeps_files exn (k a)) ->
  keeps_files exn (bind exn m k).
Proof.
  intros Hm Hk w p Hp. specialize (Hm w p Hp). unfold bind.
  destruct (m w) as [w1 [a|e|code]]; simpl in Hm; try exact Hm.
  apply Hk, Hm.
Qed.

Lemma keeps_files_ret {A : Type} (a : A) : keeps_files exn (ret exn a).
Proof. intros w p Hp. exact Hp. Qed.

Lemma keeps_files_lift {A : Type} (c : outcome exn A) : keeps_files exn (lift exn c).
Proof. intros w p Hp. destruct c; exact Hp. Qed.

Lemma keeps_files_existsSync p : keeps_files exn (existsSync exn p).
Proof. intros w q Hq. exact Hq. Qed.

Lemma keeps_files_readFileSync p : keeps_files exn (readFileSync exn ENOENT p).
Proof. intros w q Hq. unfold readFileSync. destruct (fs w !! p); exact Hq. Qed.

Lemma keeps_files_writeFileSync p contents :
  keeps_files exn (writeFileSync exn p contents).
Proof.
  intros w q Hq. simpl. apply lookup_insert_is_Some.
  destruct (decide (p = q)); [left; assumption | right; split; assumption].
Qed.

Lemma keeps_files_if {A : Type} (b : bool) (m1 m2 : M exn A) :
  keeps_files exn m1 -> keeps_files exn m2 ->
  keeps_files exn (if b then m1 else m2).
Proof. destruct b; trivial. Qed.

Lemma keeps_files_forEachM {A : Type} (f : A -> M exn unit) (l : list A) :
  (forall a, keeps_files exn (f a)) -> keeps_files exn (forEachM exn f l).
Proof.
  intros Hf. induction l as [|x l IH]; simpl.
  - apply keeps_files_ret.
  - apply keeps_files_bind; [apply Hf | intros _; apply IH].
Qed.

Ltac keeps_files_step :=
  first
    [ apply keeps_files_ret
    | apply keeps_files_lift
    | apply keeps_files_existsSync
    | apply keeps_files_readFileSync
    | apply keeps_files_writeFileSync
    | apply keeps_files_if
    | apply keeps_files_bind; [|intros ?] ].

Lemma keeps_files_renderContract
    (destFn headerFn : string -> option string -> string) template c :
  keeps_files exn
    (renderContract exn TypeError ENOENT JSON_parse destFn headerFn template c).
Proof. unfold renderContract, readHeader, mkdir_p. repeat keeps_files_step. Qed.

(** A contract rendered without a throw has its page. *)
Lemma renderContract_page
    (destFn headerFn : string -> option string -> string) template c w w' :
  renderContract exn TypeError ENOENT JSON_parse destFn headerFn template c w
  = (w', Normal tt) ->
  is_Some (fs w' !! destFn (file c) (contractName c)).
Proof.
  unfold renderContract. intros H.
  repeat (apply bind_normal in H; destruct H as (? & ? & _ & H)).
  injection H as <-. simpl. rewrite lookup_insert_eq. eauto.
Qed.

Lemma forEachM_pages
    (destFn headerFn : string -> option string -> string) template
    (l : list Contract) w w' :
  forEachM exn
    (renderContract exn TypeError ENOENT JSON_parse destFn headerFn template) l w
  = (w', Normal tt) ->
  forall c, In c l -> is_Some (fs w' !! destFn (file c) (contractName c)).
Proof.
  revert w. induction l as [|x l IH]; intros w H c Hc; [destruct Hc|].
  simpl in H. apply bind_normal in H as ([] & w1 & Hx & H).
  destruct Hc as [<-|Hc].
  - pose proof (keeps_files_forEachM _ l
                  (keeps_files_renderContract destFn headerFn template) w1 _
                  (renderContract_page _ _ _ _ _ _ Hx)) as Hk.
    rewrite H in Hk. exact Hk.
  - exact (IH w1 H c Hc).
Qed.

(** When [render] returns, the table of contents and a page for every
    contract it was given exist. *)
Lemma render_pages_exist
    (destFn headerFn : string -> option string -> string)
    template tocTemplate (compileOutput : list Contract) (w w' : World) :
  Gen.render exn TypeError ENOENT JSON_parse compileOutput destFn headerFn
    template tocTemplate w = (w', Normal tt) ->
  is_Some (fs w' !! destFn "toc" None)
  /\ forall c, In c compileOutput ->
               is_Some (fs w' !! destFn (file c) (contractName c)).
Proof.
  unfold Gen.render. intros H.
  apply bind_normal in H as (h & w1 & _ & H).
  apply bind_normal in H as (toc & w2 & _ & H).
  apply bind_normal in H as ([] & w3 & _ & H).
  apply bind_normal in H as ([] & w4 & Hw & H).
  injection Hw as <-. split.
  - pose proof (keeps_files_forEachM _ compileOutput
                  (keeps_files_renderContract destFn headerFn template)
                  {| fs := <[destFn "toc" None := toc]> (fs w3); stdout := stdout w3 |}
                  (destFn "toc" None)) as Hk.
    rewrite H in Hk. apply Hk. simpl. rewrite lookup_insert_eq. eauto.
  - exact (forEachM_pages destFn headerFn template compileOutput _ _ H).
Qed.

(** A run that ends with status 0 has written the table of contents and
    a page for every contract [compile] returned. *)
Theorem successful_run_writes_every_page (w : World) :
  snd (script w) = Exited 0 ->
  is_Some (fs (fst (script w)) !! "./docs/ref/README.md")
  /\ exists output,
       snd (compile (listed exn w) (compiling exn w)) = Normal output
       /\ forall c, In c output ->
                    is_Some (fs (fst (script w))
                             !! destFn (file c) (contractName c)).
Proof.
  unfold Gen.script, try_catch. rewrite body_stages.
  destruct (compile (listed exn w) (compiling exn w))
    as [w2 [output|e|code]] eqn:Hc.
  - destruct (render output (rendering output w2)) as [w3 [[]|e|code]] eqn:Hr.
    + intros _. simpl.
      destruct (render_pages_exist _ _ _ _ _ _ _ Hr) as [Htoc Hpages].
      split; [exact Htoc|]. exists output. split; [reflexivity|exact Hpages].
    + rewrite handler_logged. discriminate.
    + destruct (never_exits_render _ _ _ _ _ _ _ _ _ _ Hr).
  - rewrite handler_logged. discriminate.
  - destruct (never_exits_compile _ _ _ _ _ _ _ _ Hc).
Qed.

(** *** The compiler input *)



End GeneratorFrame.

(** ** The queries of the [Reputation] entity *)

Section ReputationQueries.
Import Js Rx.

Lemma lower_ascii_idempotent (c : ascii) :
  lower_ascii (lower_ascii c) = lower_ascii c.
Proof. destruct c as [[] [] [] [] [] [] [] []]; reflexivity. Qed.

Lemma toLowerCase_idempotent (s : string) :
  toLowerCase (toLowerCase s) = toLowerCase s.
Proof.
  induction s as [|c s IH]; [reflexivity|].
  simpl. rewrite lower_ascii_idempotent, IH. reflexivity.
Qed.

(** The state of an entity does not depend on the case of the address it
    is built with: the address and its lowercased form give the same
    query, the same item map and so the same state observable. *)
Theorem state_ignores_address_case (address : string) (context : Reputation.Arc) :
  Reputation.stateQuery (toLowerCase address) = Reputation.stateQuery address
  /\ Reputation.state (Reputation.new (toLowerCase address) context)
     = Reputation.state (Reputation.new address context).
Proof.
  unfold Reputation.new, Reputation.itemMap, Reputation.stateQuery; simpl.
  rewrite toLowerCase_idempotent. split; reflexivity.
Qed.




End ReputationQueries.

(** ** The members page *)

Section MembersFurther.
Import Js Rx React DaoMembersContainer.

(** What the default export returns: without a route address it throws;
    with one, a [Subscribe] to the members observable of that DAO whose
    render function gives the error as its message, an empty container
    once a members list has arrived (whatever the list holds), and the
    loading image before that. *)
Theorem default_page DAO_members store (daoAvatarAddress : option string) :
  match daoAvatarAddress with
  | Some daoAddress =>
      if Text.nonempty daoAddress
      then
        exists children,
          default DAO_members store daoAvatarAddress
          = Ok (NSubscribe (list Member) (DAO_members daoAddress) children)
          /\ forall st : IObservableState (list Member),
               children st ≫= mount
               = match error st, data st with
                 | Some e, _ => Ok [DHost "div" [] [DText (message e)]]
                 | None, Some _ =>
                     Ok [DHost "div" [("className", css "membersContainer")] []]
                 | None, None =>
                     Ok [DHost "div" [("className", css "loading")]
                           [DHost "img"
                              [("src", "/assets/images/Icon/Loading-black.svg")]
                              []]]
                 end
      else default DAO_members store daoAvatarAddress
           = Throw (mkError "No dao address specified ")
  | None =>
      default DAO_members store daoAvatarAddress
      = Throw (mkError "No dao address specified ")
  end.
Proof.
  destruct daoAvatarAddress as [a|]; [|reflexivity].
  unfold default. destruct (Text.nonempty a); [|reflexivity].
  eexists. split; [reflexivity|].
  intros st. cbv beta. destruct (error st) as [e|]; [reflexivity|].
  destruct (data st) as [ms|]; [|reflexivity].
  unfold ConnectedDaoMembersContainer.
  exact (render_mounts_empty _).
Qed.

(** The render function of a member's [Subscribe] throws exactly when it
    is given no [dao], the state holds no error, and it holds a member
    that has a profile. *)
Theorem memberView_throws (dao : option IDAOState) (profiles : gmap string Profile)
    (st : IObservableState IMemberState) :
  (exists e, memberView dao profiles st = Throw e)
  <-> dao = None /\ error st = None
      /\ exists m, data st = Some m /\ is_Some (profiles !! address m).
Proof.
  unfold memberView.
  destruct (error st) as [e|].
  { split; [intros [? [=]] | intros (_ & [=] & _)]. }
  destruct (data st) as [m|].
  2:{ split; [intros [? [=]] | intros (_ & _ & ? & [=] & _)]. }
  destruct (profiles !! address m) as [profile|] eqn:Hp.
  - destruct dao as [d|]; simpl.
    + split; [intros [? [=]] | intros ([=] & _)].
    + split; [|eauto]. intros _. repeat split. exists m. rewrite Hp. eauto.
  - simpl. split; [intros [? [=]]|].
    intros (_ & _ & m' & [= <-] & [x Hx]). rewrite Hp in Hx. discriminate.
Qed.

End MembersFurther.

(** ** The lock row across renders *)

Section LockRowFurther.
Import React LockRow.

Variable clock : nat -> Z.
Variable format : Z -> string.
Variable formatAmount : string -> string.

Abbreviation renderRow := (LockRow.LockRow clock format formatAmount).

(** Between two consecutive renders that are given the same lock object
    with the same released flag, the Release button does not change,
    whatever the clock reads and whatever else changes in the
    properties. *)
Theorem release_decision_frozen (props props' : IProps) (st : RenderState) :
  oid (lockData props') = oid (lockData props) ->
  released (obj (lockData props')) = released (obj (lockData props)) ->
  showsRelease (fst (renderRow props' (snd (renderRow props st))))
  = showsRelease (fst (renderRow props st)).
Proof.
  intros Hoid Hrel.
  pose proof (LockRow_actions clock format formatAmount props st) as [H1 _].
  pose proof (LockRow_memoises clock format formatAmount props st) as [_ HM].
  pose proof (LockRow_actions clock format formatAmount props'
                (snd (renderRow props st))) as [H2 _].
  cbv zeta in *. rewrite H2, H1, Hoid, HM, Hrel. reflexivity.
Qed.

(** A released lock is never offered for release and, once locking has
    ended, no lock is offered for extension, whatever the hooks hold and
    whatever the clock reads. *)
Theorem no_action_when_closed (props : IProps) (st : RenderState) :
  (released (obj (lockData props)) = true ->
   showsRelease (fst (renderRow props st)) = false)
  /\ (isLockingEnded props = true ->
      showsExtend (fst (renderRow props st)) = false).
Proof.
  pose proof (LockRow_actions clock format formatAmount props st) as [H1 H2].
  cbv zeta in *. split; intros H; [rewrite H1 | rewrite H2]; rewrite H; reflexivity.
Qed.

(** A render leaves the three state cells as they are and evaluates
    [moment()] once for the release memo, unless it is memoised for the
    lock object, and once for the Extend condition, unless locking has
    ended. *)
Theorem render_keeps_state_cells (props : IProps) (st : RenderState) :
  let st' := snd (renderRow props st) in
  isReleasing (hooks st') = isReleasing (hooks st)
  /\ isExtending (hooks st') = isExtending (hooks st)
  /\ lockDuration (hooks st') = lockDuration (hooks st)
  /\ readings st'
     = (readings st
        + (match memoised (releaseMemo (hooks st)) (oid (lockData props)) with
           | Some _ => 0
           | None => 1
           end)
        + (if isLockingEnded props then 0 else 1))%nat.
Proof.
  destruct st as [h n]. destruct props as [params [dep lock] batch ds cur ended].
  destruct h as [ir ie ld rm lm]. simpl.
  unfold LockRow.LockRow, bind, useMemo, memoised; simpl.
  destruct rm as [[d1 v1]|]; destruct lm as [[d2 v2]|]; simpl;
    repeat match goal with
           | |- context [(?a =? dep)%nat] => destruct (a =? dep)%nat; simpl
           end;
    destruct ended; simpl; repeat split; lia.
Qed.

(** On a render that computes the release memo, with a clock that does
    not run backwards, the Release button and the Extend control are
    rendered together only at the releasable instant itself. *)
Theorem both_actions_only_at_boundary (props : IProps) (st : RenderState) :
  memoised (releasableMemo (hooks st)) (oid (lockData props)) = None ->
  memoised (releaseMemo (hooks st)) (oid (lockData props)) = None ->
  clock (readings st) <= clock (S (readings st)) ->
  showsRelease (fst (LockRow.LockRow clock format formatAmount props st)) = true ->
  showsExtend (fst (LockRow.LockRow clock format formatAmount props st)) = true ->
  clock (readings st) = releasableTime props
  /\ clock (S (readings st)) = releasableTime props.
Proof.
  intros H1 H2 Hclock.
  pose proof (LockRow_actions clock format formatAmount props st) as [HR HE].
  cbv zeta in *. rewrite H1, H2 in *. simpl in *. rewrite HR, HE.
  intros Hr He.
  apply andb_true_iff in Hr as [_ Hr]. apply andb_true_iff in Hr as [Hr _].
  apply andb_true_iff in He as [_ He].
  apply Z.leb_le in Hr, He. lia.
Qed.

End LockRowFurther.

(** ** The further properties on the concrete inputs *)

Section FurtherRuns.
Import Text Gen React LockRow.



Lemma successful_run_writes_every_page_witness :
  is_Some (fs (fst (Demo.script (Demo.world Demo.repository)))
           !! "./docs/ref/README.md").
Proof.
  refine (proj1 (successful_run_writes_every_page string Demo.stack Demo.TypeError
                   Demo.ENOENT Demo.solc_compile Demo.JSON_parse Demo.path_resolve
                   Demo.contractTemplate Demo.tableOfContentsTemplate
                   (Demo.world Demo.repository) _)).
  vm_compute. reflexivity.
Defined.

Lemma destFn_depth_one_witness :
  destFn ("./contracts/" ++ "a" ++ "/" ++ "Ok.sol") (Some "Ok")
  = "./docs/ref/" ++ "a" ++ "/" ++ "Ok" ++ ".md".
Proof.
  exact (destFn_depth_one "a" "Ok.sol" "Ok" eq_refl eq_refl eq_refl eq_refl eq_refl).
Defined.

Lemma headerFn_depth_one_witness :
  headerFn ("./contracts/" ++ "a" ++ "/" ++ "Ok.sol") (Some "Ok")
  = "./docs/headers/" ++ "a" ++ "/" ++ "Ok" ++ ".md".
Proof.
  exact (headerFn_depth_one "a" "Ok.sol" "Ok" eq_refl eq_refl eq_refl eq_refl eq_refl).
Defined.



Lemma release_decision_frozen_witness :
  showsRelease (fst Demo.secondRender) = showsRelease (fst Demo.firstRender).
Proof.
  exact (release_decision_frozen Demo.clock Demo.format Demo.formatAmount
           Demo.lockProps Demo.lockProps
           {| hooks := initialHooks; readings := 0 |} eq_refl eq_refl).
Defined.

Lemma no_action_when_closed_witness :
  showsRelease
    (fst (LockRow.LockRow Demo.boundaryClock Demo.format Demo.formatAmount
            Demo.releasedProps {| hooks := initialHooks; readings := 0 |}))
  = false.
Proof.
  exact (proj1 (no_action_when_closed Demo.boundaryClock Demo.format
                  Demo.formatAmount Demo.releasedProps
                  {| hooks := initialHooks; readings := 0 |}) eq_refl).
Defined.

Lemma both_actions_only_at_boundary_witness :
  Demo.boundaryClock 0 = releasableTime Demo.lockProps
  /\ Demo.boundaryClock 1 = releasableTime Demo.lockProps.
Proof.
  refine (both_actions_only_at_boundary Demo.boundaryClock Demo.format
            Demo.formatAmount Demo.lockProps
            {| hooks := initialHooks; readings := 0 |}
            eq_refl eq_refl _ eq_refl eq_refl).
  vm_compute. discriminate.
Defined.

End FurtherRuns.
